(** * CSTR with cooling jacket: the reactor model and its RK4 integrator

    A shallow embedding of [src/utils/cstrModel.ts] (class [CSTRSimulator])
    and the properties its specification states about it.

    ** Numbers

    A TypeScript [number] is an IEEE-754 binary64 value.  The model is
    written once, over an interface [Number] that carries the arithmetic
    operators the source uses ([+ - * /], unary minus, [>], [===] and
    decimal literals), and an interface [MathLib] for the two library calls
    [Math.exp] and [Math.pow], which ECMAScript leaves
    implementation-approximated.  Every theorem of the section
    [ModelFacts] holds for every instance: it only depends on which
    operations the code applies and in which order.

    Two instances are given:
    - [Binary64]: Rocq's primitive floats.  The operators compute, so the
      methods that do not call [Math.exp]/[Math.pow] can be run on concrete
      inputs with the rounding the program really performs.
    - [Exact]: the real numbers, used for the statements that need the order
      or the field laws (bounds, signs, steady states).  Division is the
      total division of the real library; statements that divide carry the
      hypothesis that the divisor is not zero.

    The bounds of the conversion, the sign of the outlet flow, the steady
    state and the range of the mini graphs are proved for [Binary64] as
    well: the sections [Binary64Rounding] and [Binary64Order] derive the
    order, the signs and the bounds of rounded results from the kernel's
    specification of the float operations. *)

From Stdlib Require Import ZArith QArith Reals Lra Floats Uint63 List.
From Stdlib Require Import Lia.
From ExtLib Require Import Structures.Monad Structures.MonadState.
From ExtLib Require Import Data.Monads.StateMonad.
Import MonadNotation ListNotations.

Set Implicit Arguments.

(** ** The arithmetic of [number] *)

Declare Scope num_scope.
Delimit Scope num_scope with num.

Class Number (num : Type) : Type := {
  num_add : num -> num -> num;
  num_sub : num -> num -> num;
  num_mul : num -> num -> num;
  num_div : num -> num -> num;
  num_neg : num -> num;
  lit : Q -> num;               (* a decimal literal of the source text *)
  num_gt : num -> num -> bool;  (* [a > b] *)
  num_eq : num -> num -> bool   (* [a === b] *)
}.

Class MathLib (num : Type) : Type := {
  Math_exp : num -> num;
  Math_pow : num -> num -> num
}.

Infix "+" := num_add : num_scope.
Infix "-" := num_sub : num_scope.
Infix "*" := num_mul : num_scope.
Infix "/" := num_div : num_scope.
Notation "- x" := (num_neg x) : num_scope.
Infix ">" := num_gt : num_scope.
Infix "===" := num_eq (at level 70, no associativity) : num_scope.
Notation "# q" := (lit q%Q) (at level 9, q at level 9, format "# q") : num_scope.

(** ** Data model *)

Section DataModel.
Variable num : Type.

Record CSTRState : Type := mkCSTRState {
    volume : num;
    concentration : num;
    temperature : num;
    jacketTemp : num;
    time : num
  }.

Record CSTRParameters : Type := mkCSTRParameters {
    inletFlowRate : num;
    feedConcentration : num;
    feedTemperature : num;
    jacketInletTemp : num;
    valveConstant : num;
    minimumVolume : num;
    preExponentialFactor : num;
    activationEnergy : num;
    gasConstant : num;
    reactionOrder : num;
    density : num;
    heatCapacity : num;
    heatOfReaction : num;
    heatTransferCoeff : num;
    heatTransferArea : num;
    jacketDensity : num;
    jacketHeatCapacity : num;
    jacketVolume : num;
    jacketFlowRate : num
  }.

(** [Partial<CSTRParameters>]: every property is either absent ([None])
    or present with a number. *)
Record PartialCSTRParameters : Type := mkPartialCSTRParameters {
    inletFlowRate_opt : option num;
    feedConcentration_opt : option num;
    feedTemperature_opt : option num;
    jacketInletTemp_opt : option num;
    valveConstant_opt : option num;
    minimumVolume_opt : option num;
    preExponentialFactor_opt : option num;
    activationEnergy_opt : option num;
    gasConstant_opt : option num;
    reactionOrder_opt : option num;
    density_opt : option num;
    heatCapacity_opt : option num;
    heatOfReaction_opt : option num;
    heatTransferCoeff_opt : option num;
    heatTransferArea_opt : option num;
    jacketDensity_opt : option num;
    jacketHeatCapacity_opt : option num;
    jacketVolume_opt : option num;
    jacketFlowRate_opt : option num
  }.

(** The three private fields of a [CSTRSimulator] object. *)
Record CSTRSimulator : Type := mkCSTRSimulator {
    state : CSTRState;
    params : CSTRParameters;
    dt : num
  }.
End DataModel.

Arguments mkCSTRState {num}.
Arguments mkCSTRParameters {num}.
Arguments mkPartialCSTRParameters {num}.
Arguments mkCSTRSimulator {num}.

(** ** The simulator *)

Section Model.
Context {num : Type} {N : Number num}.
Local Open Scope num_scope.
Local Open Scope monad_scope.

Local Abbreviation Sim := (CSTRSimulator num).
Local Abbreviation Method := (StateMonad.state (CSTRSimulator num)).

(** [constructor(initialState, parameters)]: both arguments are copied and
    the instance field [dt] is initialised to the literal [0.1]. *)
Definition new (initialState : CSTRState num)
    (parameters : CSTRParameters num) : Sim :=
  {| state := initialState; params := parameters; dt := #0.1 |}.

(** *** Private read-only methods *)

Definition getOutletFlowRate (this : Sim) : num :=
  this.(params).(valveConstant)
  * (this.(state).(volume) - this.(params).(minimumVolume)).

Definition volumeDerivative (this : Sim) : num :=
  let outletFlow := getOutletFlowRate this in
  this.(params).(inletFlowRate) - outletFlow.

Definition jacketTempDerivative (this : Sim) : num :=
  let jacketHeatCapacity :=
    this.(params).(jacketDensity) * this.(params).(jacketHeatCapacity) in
  let convectiveTerm :=
    this.(params).(jacketFlowRate) * jacketHeatCapacity
    * (this.(params).(jacketInletTemp) - this.(state).(jacketTemp)) in
  let heatTransferTerm :=
    this.(params).(heatTransferCoeff) * this.(params).(heatTransferArea)
    * (this.(state).(temperature) - this.(state).(jacketTemp)) in
  (convectiveTerm + heatTransferTerm)
  / (jacketHeatCapacity * this.(params).(jacketVolume)).

Section WithMathLib.
Context {ML : MathLib num}.

Definition calculateRateConstant (this : Sim) : num :=
    this.(params).(preExponentialFactor)
    * Math_exp (- this.(params).(activationEnergy)
                / (this.(params).(gasConstant) * this.(state).(temperature))).

Definition getReactionRateValue (this : Sim) : num :=
    let k := calculateRateConstant this in
    k * Math_pow this.(state).(concentration) this.(params).(reactionOrder).

Definition concentrationDerivative (this : Sim) : num :=
    let outletFlow := getOutletFlowRate this in
    let reactionRate := getReactionRateValue this in
    (this.(params).(inletFlowRate) * this.(params).(feedConcentration)
     - outletFlow * this.(state).(concentration)
     - this.(state).(volume) * reactionRate)
    / this.(state).(volume).

Definition temperatureDerivative (this : Sim) : num :=
    let outletFlow := getOutletFlowRate this in
    let reactionRate := getReactionRateValue this in
    let volumetricHeatCapacity :=
      this.(params).(density) * this.(params).(heatCapacity) in
    let convectiveTerm :=
      volumetricHeatCapacity
      * (this.(params).(inletFlowRate) * this.(params).(feedTemperature)
         - outletFlow * this.(state).(temperature)) in
    let reactionTerm :=
      this.(params).(heatOfReaction) * this.(state).(volume) * reactionRate in
    let heatTransferTerm :=
      this.(params).(heatTransferCoeff) * this.(params).(heatTransferArea)
      * (this.(state).(temperature) - this.(state).(jacketTemp)) in
    (convectiveTerm - reactionTerm - heatTransferTerm)
    / (volumetricHeatCapacity * this.(state).(volume)).
End WithMathLib.

(** *** Assignments to [this]

    [this.state = st] and the compound assignments [this.state.f += e]
    of [step].  An object spread [{ ...o }] builds a fresh object with the
    same fields; with immutable records it is the record itself. *)

Definition assign_state (st : CSTRState num) : Method unit :=
  this <- get ;;
  put {| state := st; params := this.(params); dt := this.(dt) |}.

Definition assign_params (p : CSTRParameters num) : Method unit :=
  this <- get ;;
  put {| state := this.(state); params := p; dt := this.(dt) |}.

Definition volume_add_assign (e : num) : Method unit :=
  this <- get ;;
  let s := this.(state) in
  assign_state (mkCSTRState (s.(volume) + e) s.(concentration)
                  s.(temperature) s.(jacketTemp) s.(time)).

Definition concentration_add_assign (e : num) : Method unit :=
  this <- get ;;
  let s := this.(state) in
  assign_state (mkCSTRState s.(volume) (s.(concentration) + e)
                  s.(temperature) s.(jacketTemp) s.(time)).

Definition temperature_add_assign (e : num) : Method unit :=
  this <- get ;;
  let s := this.(state) in
  assign_state (mkCSTRState s.(volume) s.(concentration)
                  (s.(temperature) + e) s.(jacketTemp) s.(time)).

Definition jacketTemp_add_assign (e : num) : Method unit :=
  this <- get ;;
  let s := this.(state) in
  assign_state (mkCSTRState s.(volume) s.(concentration)
                  s.(temperature) (s.(jacketTemp) + e) s.(time)).

Definition time_add_assign (e : num) : Method unit :=
  this <- get ;;
  let s := this.(state) in
  assign_state (mkCSTRState s.(volume) s.(concentration)
                  s.(temperature) s.(jacketTemp) (s.(time) + e)).

(** *** [step]: Runge-Kutta 4th order integration *)

Section Step.
Context {ML : MathLib num}.

Definition step : Method (CSTRState num) :=
  k1_v <- gets (fun this => this.(dt) * volumeDerivative this) ;;
  k1_c <- gets (fun this => this.(dt) * concentrationDerivative this) ;;
  k1_t <- gets (fun this => this.(dt) * temperatureDerivative this) ;;
  k1_tj <- gets (fun this => this.(dt) * jacketTempDerivative this) ;;
  (* Store original state *)
  originalState <- gets (@state num) ;;
  (* Calculate k2 *)
  volume_add_assign (k1_v / #2) ;;
  concentration_add_assign (k1_c / #2) ;;
  temperature_add_assign (k1_t / #2) ;;
  jacketTemp_add_assign (k1_tj / #2) ;;
  k2_v <- gets (fun this => this.(dt) * volumeDerivative this) ;;
  k2_c <- gets (fun this => this.(dt) * concentrationDerivative this) ;;
  k2_t <- gets (fun this => this.(dt) * temperatureDerivative this) ;;
  k2_tj <- gets (fun this => this.(dt) * jacketTempDerivative this) ;;
  (* Calculate k3 *)
  assign_state originalState ;;
  volume_add_assign (k2_v / #2) ;;
  concentration_add_assign (k2_c / #2) ;;
  temperature_add_assign (k2_t / #2) ;;
  jacketTemp_add_assign (k2_tj / #2) ;;
  k3_v <- gets (fun this => this.(dt) * volumeDerivative this) ;;
  k3_c <- gets (fun this => this.(dt) * concentrationDerivative this) ;;
  k3_t <- gets (fun this => this.(dt) * temperatureDerivative this) ;;
  k3_tj <- gets (fun this => this.(dt) * jacketTempDerivative this) ;;
  (* Calculate k4 *)
  assign_state originalState ;;
  volume_add_assign k3_v ;;
  concentration_add_assign k3_c ;;
  temperature_add_assign k3_t ;;
  jacketTemp_add_assign k3_tj ;;
  k4_v <- gets (fun this => this.(dt) * volumeDerivative this) ;;
  k4_c <- gets (fun this => this.(dt) * concentrationDerivative this) ;;
  k4_t <- gets (fun this => this.(dt) * temperatureDerivative this) ;;
  k4_tj <- gets (fun this => this.(dt) * jacketTempDerivative this) ;;
  (* Final update *)
  assign_state originalState ;;
  volume_add_assign ((k1_v + #2 * k2_v + #2 * k3_v + k4_v) / #6) ;;
  concentration_add_assign ((k1_c + #2 * k2_c + #2 * k3_c + k4_c) / #6) ;;
  temperature_add_assign ((k1_t + #2 * k2_t + #2 * k3_t + k4_t) / #6) ;;
  jacketTemp_add_assign ((k1_tj + #2 * k2_tj + #2 * k3_tj + k4_tj) / #6) ;;
  dt_ <- gets (@dt num) ;;
  time_add_assign dt_ ;;
  gets (@state num).
End Step.

(** *** [updateParameters]: [this.params = { ...this.params, ...newParams }]

    The second spread overwrites exactly the properties that [newParams]
    has. *)

Definition spread_over (old : num) (new : option num) : num :=
  match new with
  | Some v => v
  | None => old
  end.

Definition spread_params (p : CSTRParameters num)
    (np : PartialCSTRParameters num) : CSTRParameters num :=
  {| inletFlowRate := spread_over p.(inletFlowRate) np.(inletFlowRate_opt);
     feedConcentration :=
       spread_over p.(feedConcentration) np.(feedConcentration_opt);
     feedTemperature :=
       spread_over p.(feedTemperature) np.(feedTemperature_opt);
     jacketInletTemp :=
       spread_over p.(jacketInletTemp) np.(jacketInletTemp_opt);
     valveConstant := spread_over p.(valveConstant) np.(valveConstant_opt);
     minimumVolume := spread_over p.(minimumVolume) np.(minimumVolume_opt);
     preExponentialFactor :=
       spread_over p.(preExponentialFactor) np.(preExponentialFactor_opt);
     activationEnergy :=
       spread_over p.(activationEnergy) np.(activationEnergy_opt);
     gasConstant := spread_over p.(gasConstant) np.(gasConstant_opt);
     reactionOrder := spread_over p.(reactionOrder) np.(reactionOrder_opt);
     density := spread_over p.(density) np.(density_opt);
     heatCapacity := spread_over p.(heatCapacity) np.(heatCapacity_opt);
     heatOfReaction :=
       spread_over p.(heatOfReaction) np.(heatOfReaction_opt);
     heatTransferCoeff :=
       spread_over p.(heatTransferCoeff) np.(heatTransferCoeff_opt);
     heatTransferArea :=
       spread_over p.(heatTransferArea) np.(heatTransferArea_opt);
     jacketDensity := spread_over p.(jacketDensity) np.(jacketDensity_opt);
     jacketHeatCapacity :=
       spread_over p.(jacketHeatCapacity) np.(jacketHeatCapacity_opt);
     jacketVolume := spread_over p.(jacketVolume) np.(jacketVolume_opt);
     jacketFlowRate :=
       spread_over p.(jacketFlowRate) np.(jacketFlowRate_opt) |}.

Definition updateParameters (newParams : PartialCSTRParameters num)
    : Method unit :=
  this <- get ;;
  assign_params (spread_params this.(params) newParams).

(** *** Public getters *)

Definition getState (this : Sim) : CSTRState num := this.(state).

Definition getConversion (this : Sim) : num :=
  if this.(params).(feedConcentration) === #0 then #0
  else (this.(params).(feedConcentration) - this.(state).(concentration))
       / this.(params).(feedConcentration) * #100.

Definition getResidenceTime (this : Sim) : num :=
  let outletFlow := getOutletFlowRate this in
  if outletFlow > #0 then this.(state).(volume) / outletFlow else #0.

Definition getHeatRemovalRate (this : Sim) : num :=
  this.(params).(heatTransferCoeff) * this.(params).(heatTransferArea)
  * (this.(state).(temperature) - this.(state).(jacketTemp)) / #1000.

Definition getReactionRate {ML : MathLib num} (this : Sim) : num :=
  getReactionRateValue this.

Definition getOutletFlow (this : Sim) : num := getOutletFlowRate this.

(** *** Sequences of calls

    What a caller can do with a simulator object: every public method.
    The getters only read [this]. *)

Inductive Call : Type :=
| call_step
| call_updateParameters (newParams : PartialCSTRParameters num)
| call_getState
| call_getConversion
| call_getResidenceTime
| call_getHeatRemovalRate
| call_getReactionRate
| call_getOutletFlow.

Definition perform {ML : MathLib num} (c : Call) : Method unit :=
  match c with
  | call_step => _ <- step ;; ret tt
  | call_updateParameters newParams => updateParameters newParams
  | call_getState => _ <- gets getState ;; ret tt
  | call_getConversion => _ <- gets getConversion ;; ret tt
  | call_getResidenceTime => _ <- gets getResidenceTime ;; ret tt
  | call_getHeatRemovalRate => _ <- gets getHeatRemovalRate ;; ret tt
  | call_getReactionRate => _ <- gets getReactionRate ;; ret tt
  | call_getOutletFlow => _ <- gets getOutletFlow ;; ret tt
  end.

Fixpoint perform_all {ML : MathLib num} (cs : list Call) : Method unit :=
  match cs with
  | [] => ret tt
  | c :: cs' => perform c ;; perform_all cs'
  end.

Definition is_step (c : Call) : bool :=
  match c with
  | call_step => true
  | _ => false
  end.

Definition count_steps (cs : list Call) : nat :=
  length (filter is_step cs).

(** [n] calls of [step] in a row, keeping the object. *)
Fixpoint steps {ML : MathLib num} (n : nat) (this : Sim) : Sim :=
  match n with
  | O => this
  | S n' => execState step (steps n' this)
  end.

(** [t + h + h + ... + h], with [n] additions performed one after the
    other from the left. *)
Fixpoint add_repeatedly (n : nat) (h t : num) : num :=
  match n with
  | O => t
  | S n' => add_repeatedly n' h t + h
  end.

(** *** The named properties of a parameter record, to state facts about
    each of them. *)

Inductive ParameterName : Type :=
| name_inletFlowRate | name_feedConcentration | name_feedTemperature
| name_jacketInletTemp | name_valveConstant | name_minimumVolume
| name_preExponentialFactor | name_activationEnergy | name_gasConstant
| name_reactionOrder | name_density | name_heatCapacity
| name_heatOfReaction | name_heatTransferCoeff | name_heatTransferArea
| name_jacketDensity | name_jacketHeatCapacity | name_jacketVolume
| name_jacketFlowRate.

Definition property (k : ParameterName) (p : CSTRParameters num) : num :=
  match k with
  | name_inletFlowRate => p.(inletFlowRate)
  | name_feedConcentration => p.(feedConcentration)
  | name_feedTemperature => p.(feedTemperature)
  | name_jacketInletTemp => p.(jacketInletTemp)
  | name_valveConstant => p.(valveConstant)
  | name_minimumVolume => p.(minimumVolume)
  | name_preExponentialFactor => p.(preExponentialFactor)
  | name_activationEnergy => p.(activationEnergy)
  | name_gasConstant => p.(gasConstant)
  | name_reactionOrder => p.(reactionOrder)
  | name_density => p.(density)
  | name_heatCapacity => p.(heatCapacity)
  | name_heatOfReaction => p.(heatOfReaction)
  | name_heatTransferCoeff => p.(heatTransferCoeff)
  | name_heatTransferArea => p.(heatTransferArea)
  | name_jacketDensity => p.(jacketDensity)
  | name_jacketHeatCapacity => p.(jacketHeatCapacity)
  | name_jacketVolume => p.(jacketVolume)
  | name_jacketFlowRate => p.(jacketFlowRate)
  end.

Definition own_property (k : ParameterName)
    (np : PartialCSTRParameters num) : option num :=
  match k with
  | name_inletFlowRate => np.(inletFlowRate_opt)
  | name_feedConcentration => np.(feedConcentration_opt)
  | name_feedTemperature => np.(feedTemperature_opt)
  | name_jacketInletTemp => np.(jacketInletTemp_opt)
  | name_valveConstant => np.(valveConstant_opt)
  | name_minimumVolume => np.(minimumVolume_opt)
  | name_preExponentialFactor => np.(preExponentialFactor_opt)
  | name_activationEnergy => np.(activationEnergy_opt)
  | name_gasConstant => np.(gasConstant_opt)
  | name_reactionOrder => np.(reactionOrder_opt)
  | name_density => np.(density_opt)
  | name_heatCapacity => np.(heatCapacity_opt)
  | name_heatOfReaction => np.(heatOfReaction_opt)
  | name_heatTransferCoeff => np.(heatTransferCoeff_opt)
  | name_heatTransferArea => np.(heatTransferArea_opt)
  | name_jacketDensity => np.(jacketDensity_opt)
  | name_jacketHeatCapacity => np.(jacketHeatCapacity_opt)
  | name_jacketVolume => np.(jacketVolume_opt)
  | name_jacketFlowRate => np.(jacketFlowRate_opt)
  end.

(** ** The specification's formulas

    Written from the specification's text (section 4.1), over the vector
    state [x = (V, CA, T, TJ)], to be compared with the methods above. *)

Record Vec4 : Type := mkVec4 { x_V : num; x_CA : num; x_T : num; x_TJ : num }.

Definition vector_of (s : CSTRState num) : Vec4 :=
  mkVec4 s.(volume) s.(concentration) s.(temperature) s.(jacketTemp).

Definition vec_add (a b : Vec4) : Vec4 :=
  mkVec4 (a.(x_V) + b.(x_V)) (a.(x_CA) + b.(x_CA))
         (a.(x_T) + b.(x_T)) (a.(x_TJ) + b.(x_TJ)).

Definition vec_scale (c : num) (a : Vec4) : Vec4 :=
  mkVec4 (c * a.(x_V)) (c * a.(x_CA)) (c * a.(x_T)) (c * a.(x_TJ)).

Definition vec_div (a : Vec4) (c : num) : Vec4 :=
  mkVec4 (a.(x_V) / c) (a.(x_CA) / c) (a.(x_T) / c) (a.(x_TJ) / c).

Section SpecFormulas.
Context {ML : MathLib num}.
Variable p : CSTRParameters num.

(** [F = KV·(V − Vmin)] *)
Definition spec_F (x : Vec4) : num :=
  p.(valveConstant) * (x.(x_V) - p.(minimumVolume)).

(** [k = α · exp(−E / (R·T))] *)
Definition spec_k (x : Vec4) : num :=
  p.(preExponentialFactor)
  * Math_exp (- p.(activationEnergy) / (p.(gasConstant) * x.(x_T))).

(** [r = k · CA^n] *)
Definition spec_r (x : Vec4) : num :=
  spec_k x * Math_pow x.(x_CA) p.(reactionOrder).

(** [dV/dt = F0 − F] *)
Definition spec_dV (x : Vec4) : num :=
  p.(inletFlowRate) - spec_F x.

(** [dCA/dt = (F0·CA0 − F·CA − V·r) / V] *)
Definition spec_dCA (x : Vec4) : num :=
  (p.(inletFlowRate) * p.(feedConcentration) - spec_F x * x.(x_CA)
   - x.(x_V) * spec_r x)
  / x.(x_V).

(** [dT/dt = (ρCp·(F0·T0 − F·T) − λ·V·r − U·AH·(T − TJ)) / (ρCp·V)] *)
Definition spec_dT (x : Vec4) : num :=
  let rhoCp := p.(density) * p.(heatCapacity) in
  (rhoCp * (p.(inletFlowRate) * p.(feedTemperature) - spec_F x * x.(x_T))
   - p.(heatOfReaction) * x.(x_V) * spec_r x
   - p.(heatTransferCoeff) * p.(heatTransferArea) * (x.(x_T) - x.(x_TJ)))
  / (rhoCp * x.(x_V)).

(** [dTJ/dt = (FJ·ρJCJ·(TJ0 − TJ) + U·AH·(T − TJ)) / (ρJCJ·VJ)] *)
Definition spec_dTJ (x : Vec4) : num :=
  let rhoJCJ := p.(jacketDensity) * p.(jacketHeatCapacity) in
  (p.(jacketFlowRate) * rhoJCJ * (p.(jacketInletTemp) - x.(x_TJ))
   + p.(heatTransferCoeff) * p.(heatTransferArea) * (x.(x_T) - x.(x_TJ)))
  / (rhoJCJ * p.(jacketVolume)).

(** The derivative vector [f(x)]. *)
Definition spec_f (x : Vec4) : Vec4 :=
  mkVec4 (spec_dV x) (spec_dCA x) (spec_dT x) (spec_dTJ x).

(** One classical RK4 step of size [h]: steps 1 to 5 of the
    specification. *)
Definition spec_rk4 (h : num) (x0 : Vec4) : Vec4 :=
  let k1 := vec_scale h (spec_f x0) in
  let k2 := vec_scale h (spec_f (vec_add x0 (vec_div k1 #2))) in
  let k3 := vec_scale h (spec_f (vec_add x0 (vec_div k2 #2))) in
  let k4 := vec_scale h (spec_f (vec_add x0 k3)) in
  vec_add x0
    (vec_div
       (vec_add (vec_add (vec_add k1 (vec_scale #2 k2)) (vec_scale #2 k3)) k4)
       #6).

(** The state the specification prescribes after a step: the RK4 vector
    and the time advanced by [h]. *)
Definition spec_step (h : num) (s : CSTRState num) : CSTRState num :=
  let x := spec_rk4 h (vector_of s) in
  {| volume := x.(x_V); concentration := x.(x_CA); temperature := x.(x_T);
     jacketTemp := x.(x_TJ); time := s.(time) + h |}.
End SpecFormulas.

(** The volume equation alone: one RK4 step of [dV/dt = F0 − KV·(V − Vmin)]. *)
Definition volume_rk4 (h F0 KV Vmin V : num) : num :=
  let dV := fun v => F0 - KV * (v - Vmin) in
  let k1 := h * dV V in
  let k2 := h * dV (V + k1 / #2) in
  let k3 := h * dV (V + k2 / #2) in
  let k4 := h * dV (V + k3) in
  V + (k1 + #2 * k2 + #2 * k3 + k4) / #6.

(** *** The concrete scenario of the specification (section 8) *)

Definition scenario_state : CSTRState num :=
  {| volume := #1.0; concentration := #0.5; temperature := #350;
     jacketTemp := #300; time := #0 |}.

Definition scenario_params : CSTRParameters num :=
  {| inletFlowRate := #1.0; feedConcentration := #0.5;
     feedTemperature := #350; jacketInletTemp := #300;
     valveConstant := #0.1; minimumVolume := #0.1;
     preExponentialFactor := #1.0; activationEnergy := #10000;
     gasConstant := #8.314; reactionOrder := #2;
     density := #1000; heatCapacity := #4.18; heatOfReaction := #1.0;
     heatTransferCoeff := #100; heatTransferArea := #1.0;
     jacketDensity := #1000; jacketHeatCapacity := #4.18;
     jacketVolume := #0.1; jacketFlowRate := #0.1 |}.
(** *** Further concrete inputs *)

(** The scenario with the outlet valve closed ([KV = 0]) and the level
    below the minimum volume. *)
Definition closed_valve_params : CSTRParameters num :=
  {| inletFlowRate := #1.0; feedConcentration := #0.5;
     feedTemperature := #350; jacketInletTemp := #300;
     valveConstant := #0; minimumVolume := #0.1;
     preExponentialFactor := #1.0; activationEnergy := #10000;
     gasConstant := #8.314; reactionOrder := #2;
     density := #1000; heatCapacity := #4.18; heatOfReaction := #1.0;
     heatTransferCoeff := #100; heatTransferArea := #1.0;
     jacketDensity := #1000; jacketHeatCapacity := #4.18;
     jacketVolume := #0.1; jacketFlowRate := #0.1 |}.

Definition low_level_state : CSTRState num :=
  {| volume := #0.05; concentration := #0.5; temperature := #350;
     jacketTemp := #300; time := #0 |}.

(** No reaction ([α = 0]), [F0 = 0.1], [KV = 0.5], [Vmin = 0.1]: the outlet
    flow matches the inlet flow at [V = Vmin + F0/KV = 0.3]. *)
Definition no_reaction_params : CSTRParameters num :=
  {| inletFlowRate := #0.1; feedConcentration := #0.5;
     feedTemperature := #350; jacketInletTemp := #300;
     valveConstant := #0.5; minimumVolume := #0.1;
     preExponentialFactor := #0; activationEnergy := #10000;
     gasConstant := #8.314; reactionOrder := #2;
     density := #1000; heatCapacity := #4.18; heatOfReaction := #1.0;
     heatTransferCoeff := #100; heatTransferArea := #1.0;
     jacketDensity := #1000; jacketHeatCapacity := #4.18;
     jacketVolume := #0.1; jacketFlowRate := #0.1 |}.

(** The reactor holds half the feed concentration. *)
Definition diluted_state : CSTRState num :=
  {| volume := #0.3; concentration := #0.25; temperature := #350;
     jacketTemp := #300; time := #0 |}.

(** The reactor holds the feed concentration. *)
Definition feed_filled_state : CSTRState num :=
  {| volume := #0.3; concentration := #0.5; temperature := #350;
     jacketTemp := #300; time := #0 |}.


(** A second reactor with the scenario's volume, [F0], [KV] and [Vmin],
    and everything else different. *)
Definition other_state : CSTRState num :=
  {| volume := #1.0; concentration := #0.25; temperature := #320;
     jacketTemp := #290; time := #5 |}.

Definition other_params : CSTRParameters num :=
  {| inletFlowRate := #1.0; feedConcentration := #2;
     feedTemperature := #330; jacketInletTemp := #280;
     valveConstant := #0.1; minimumVolume := #0.1;
     preExponentialFactor := #3; activationEnergy := #5000;
     gasConstant := #8.314; reactionOrder := #1;
     density := #900; heatCapacity := #4; heatOfReaction := #2;
     heatTransferCoeff := #50; heatTransferArea := #2;
     jacketDensity := #1100; jacketHeatCapacity := #4;
     jacketVolume := #0.2; jacketFlowRate := #0.3 |}.






(** With no reaction and the volume at rest, the concentration equation
    reduces to [dCA/dt = (F0·CA0 − F0·CA)/V]; one RK4 step of it. *)
Definition dilution_rk4 (h F0 CA0 V CA : num) : num :=
  let dCA := fun c => (F0 * CA0 - F0 * c) / V in
  let k1 := h * dCA CA in
  let k2 := h * dCA (CA + k1 / #2) in
  let k3 := h * dCA (CA + k2 / #2) in
  let k4 := h * dCA (CA + k3) in
  CA + (k1 + #2 * k2 + #2 * k3 + k4) / #6.
End Model.

Arguments Call : clear implicits.
Arguments Vec4 : clear implicits.

(** ** Instance: IEEE-754 binary64

    The operators are the kernel's primitive float operations (round to
    nearest, ties to even), which is the arithmetic ECMAScript prescribes
    for [+ - * /].  A decimal literal [n/d] with [n] and [d] below [2^53]
    is the correctly rounded quotient of two exactly represented integers,
    hence the double nearest to the literal, as the source text denotes. *)

Definition float_of_Z (z : Z) : float :=
  match z with
  | Z0 => PrimFloat.zero
  | Zpos _ => PrimFloat.of_uint63 (Uint63.of_Z z)
  | Zneg p => PrimFloat.opp (PrimFloat.of_uint63 (Uint63.of_Z (Zpos p)))
  end.

Definition float_lit (q : Q) : float :=
  PrimFloat.div (float_of_Z (Qnum q)) (float_of_Z (Zpos (Qden q))).

#[global] Instance Binary64 : Number float := {|
  num_add := PrimFloat.add;
  num_sub := PrimFloat.sub;
  num_mul := PrimFloat.mul;
  num_div := PrimFloat.div;
  num_neg := PrimFloat.opp;
  lit := float_lit;
  num_gt := fun a b => PrimFloat.ltb b a;
  num_eq := PrimFloat.eqb
|}.

(** ** Instance: exact real arithmetic *)

#[global] Instance Exact : Number R := {|
  num_add := Rplus;
  num_sub := Rminus;
  num_mul := Rmult;
  num_div := Rdiv;
  num_neg := Ropp;
  lit := Q2R;
  num_gt := fun a b => if Rlt_dec b a then true else false;
  num_eq := fun a b => if Req_dec_T a b then true else false
|}.

(** The mathematical exponential and power [x^y = exp (y ln x)] (the
    power is the intended one for positive bases). *)
Definition real_MathLib : MathLib R :=
  {| Math_exp := exp; Math_pow := Rpower |}.

(** The polynomial by which one RK4 step of size [h] scales the distance
    to the rest point of a linear equation [x' = -a·(x - x_rest)], at
    [z = h·a]. *)
Definition rk4_factor (z : R) : R :=
  (1 - z + z * z / 2 - z * z * z / 6 + z * z * z * z / 24)%R.

(** ** The caller: the [App] component

    The parts of [App.tsx] that compute with the simulator and its
    outputs: the history buffers behind the charts, the safety status, the
    parameter controls and the scaling of the mini graphs.  React's state
    cells are modelled by the values they hold; an updater function
    [prev => next] by the function itself. *)

Definition ParameterName_eq_dec (a b : ParameterName) : {a = b} + {a <> b}.
Proof. decide equality. Defined.

Section App.
Context {num : Type} {N : Number num}.
Local Open Scope num_scope.

(** [a < b]: ECMAScript evaluates [a > b] as [b < a]. *)
Definition num_lt (a b : num) : bool := b > a.

(** [a || b] on numbers: [a] is falsy when it is [0], [-0] or [NaN] (the
    only number that is not [===] to itself). *)
Definition num_or (a b : num) : num :=
  if (a === #0) || negb (a === a) then b else a.

(** [Array.prototype.slice(start)] for an integer [start]: a negative
    [start] counts from the end. *)
Definition slice {A : Type} (l : list A) (start : Z) : list A :=
  let len := Z.of_nat (length l) in
  let k :=
    if (start <? 0)%Z then Z.max (len + start) 0 else Z.min start len in
  skipn (Z.to_nat k) l.

Record ParameterHistory : Type := mkParameterHistory {
  history_volume : list num;
  history_concentration : list num;
  history_temperature : list num;
  history_jacketTemp : list num;
  history_time : list num;
  history_conversion : list num;
  history_reactionRate : list num;
  history_outletFlow : list num
}.

(** The history [useState] starts with and [resetSimulation] restores. *)
Definition initialHistory : ParameterHistory :=
  {| history_volume := [#1.0]; history_concentration := [#0.5];
     history_temperature := [#350]; history_jacketTemp := [#300];
     history_time := [#0]; history_conversion := [#0];
     history_reactionRate := [#0]; history_outletFlow := [#0] |}.

Definition maxPoints : Z := 50.

(** The updater passed to [setHistory] in the simulation loop ("keep last
    50 points"): [newState] is the state [step] returned, [simulator] the
    object [simulatorRef.current] when the updater runs. *)
Definition historyUpdater {ML : MathLib num} (newState : CSTRState num)
    (simulator : CSTRSimulator num) (prev : ParameterHistory)
    : ParameterHistory :=
  let conversion := getConversion simulator in
  let reactionRate := getReactionRate simulator in
  let outletFlow := getOutletFlow simulator in
  {| history_volume :=
       slice prev.(history_volume) (- maxPoints + 1) ++ [newState.(volume)];
     history_concentration :=
       slice prev.(history_concentration) (- maxPoints + 1)
       ++ [newState.(concentration)];
     history_temperature :=
       slice prev.(history_temperature) (- maxPoints + 1)
       ++ [newState.(temperature)];
     history_jacketTemp :=
       slice prev.(history_jacketTemp) (- maxPoints + 1)
       ++ [newState.(jacketTemp)];
     history_time :=
       slice prev.(history_time) (- maxPoints + 1) ++ [newState.(time)];
     history_conversion :=
       slice prev.(history_conversion) (- maxPoints + 1) ++ [conversion];
     history_reactionRate :=
       slice prev.(history_reactionRate) (- maxPoints + 1) ++ [reactionRate];
     history_outletFlow :=
       slice prev.(history_outletFlow) (- maxPoints + 1) ++ [outletFlow] |}.

(** What one updater does to a series [old] when it records [x]: the
    last 49 points are kept and [x] is appended. *)
Definition slides (old : list num) (x : num) (new : list num) : Prop :=
  new = skipn (length old - 49) old ++ [x]
  /\ length new = (Nat.min (length old) 49 + 1)%nat
  /\ (length new <= 50)%nat
  /\ last new x = x
  /\ old ++ [x] = firstn (length old - 49) old ++ new.

(** The eight series of a history, in the order of the interface. *)
Definition series (h : ParameterHistory) : list (list num) :=
  [h.(history_volume); h.(history_concentration); h.(history_temperature);
   h.(history_jacketTemp); h.(history_time); h.(history_conversion);
   h.(history_reactionRate); h.(history_outletFlow)].

(** A run of the loop as the history sees it: one updater per step, each
    with the state that step returned and the simulator it reads. *)
Fixpoint applyUpdaters {ML : MathLib num}
    (us : list (CSTRState num * CSTRSimulator num))
    (h : ParameterHistory) : ParameterHistory :=
  match us with
  | [] => h
  | (newState, simulator) :: us' =>
      applyUpdaters us' (historyUpdater newState simulator h)
  end.

(** *** [getSafetyStatus] *)

Inductive SafetyLevel : Type := danger | warning | normal.

Record SafetyStatus : Type := mkSafetyStatus {
  status_temperature : SafetyLevel;
  status_concentration : SafetyLevel;
  status_volume : SafetyLevel;
  status_conversion : SafetyLevel
}.

Definition getSafetyStatus (currentState : CSTRState num)
    (simulatorRef : option (CSTRSimulator num)) : SafetyStatus :=
  let tempHigh := currentState.(temperature) > #400 in
  let tempLow := num_lt currentState.(temperature) #280 in
  let concHigh := currentState.(concentration) > #2.0 in
  let volumeLow := num_lt currentState.(volume) #0.2 in
  let conversionLow :=
    match simulatorRef with
    | Some simulator => num_lt (getConversion simulator) #30
    | None => false
    end in
  {| status_temperature :=
       if tempHigh then danger else if tempLow then warning else normal;
     status_concentration := if concHigh then warning else normal;
     status_volume := if volumeLow then warning else normal;
     status_conversion := if conversionLow then warning else normal |}.

(** *** The parameter controls *)

(** An object with the single computed property [[key]: value]. *)
Definition only (key : ParameterName) (value : num) (k : ParameterName)
    : option num :=
  if ParameterName_eq_dec key k then Some value else None.

Definition single_property (key : ParameterName) (value : num)
    : PartialCSTRParameters num :=
  {| inletFlowRate_opt := only key value name_inletFlowRate;
     feedConcentration_opt := only key value name_feedConcentration;
     feedTemperature_opt := only key value name_feedTemperature;
     jacketInletTemp_opt := only key value name_jacketInletTemp;
     valveConstant_opt := only key value name_valveConstant;
     minimumVolume_opt := only key value name_minimumVolume;
     preExponentialFactor_opt := only key value name_preExponentialFactor;
     activationEnergy_opt := only key value name_activationEnergy;
     gasConstant_opt := only key value name_gasConstant;
     reactionOrder_opt := only key value name_reactionOrder;
     density_opt := only key value name_density;
     heatCapacity_opt := only key value name_heatCapacity;
     heatOfReaction_opt := only key value name_heatOfReaction;
     heatTransferCoeff_opt := only key value name_heatTransferCoeff;
     heatTransferArea_opt := only key value name_heatTransferArea;
     jacketDensity_opt := only key value name_jacketDensity;
     jacketHeatCapacity_opt := only key value name_jacketHeatCapacity;
     jacketVolume_opt := only key value name_jacketVolume;
     jacketFlowRate_opt := only key value name_jacketFlowRate |}.

(** [handleParameterChange]: the updater [prev => ({ ...prev, [key]: value })]
    applied to the parameters the controls hold. *)
Definition handleParameterChange (key : ParameterName) (value : num)
    (prev : CSTRParameters num) : CSTRParameters num :=
  spread_params prev (single_property key value).

(** A complete parameter record passed where a partial one is expected. *)
Definition as_partial (p : CSTRParameters num) : PartialCSTRParameters num :=
  {| inletFlowRate_opt := Some p.(inletFlowRate);
     feedConcentration_opt := Some p.(feedConcentration);
     feedTemperature_opt := Some p.(feedTemperature);
     jacketInletTemp_opt := Some p.(jacketInletTemp);
     valveConstant_opt := Some p.(valveConstant);
     minimumVolume_opt := Some p.(minimumVolume);
     preExponentialFactor_opt := Some p.(preExponentialFactor);
     activationEnergy_opt := Some p.(activationEnergy);
     gasConstant_opt := Some p.(gasConstant);
     reactionOrder_opt := Some p.(reactionOrder);
     density_opt := Some p.(density);
     heatCapacity_opt := Some p.(heatCapacity);
     heatOfReaction_opt := Some p.(heatOfReaction);
     heatTransferCoeff_opt := Some p.(heatTransferCoeff);
     heatTransferArea_opt := Some p.(heatTransferArea);
     jacketDensity_opt := Some p.(jacketDensity);
     jacketHeatCapacity_opt := Some p.(jacketHeatCapacity);
     jacketVolume_opt := Some p.(jacketVolume);
     jacketFlowRate_opt := Some p.(jacketFlowRate) |}.

(** The effect that follows a change of [cstrParams]:
    [if (simulatorRef.current) simulatorRef.current.updateParameters(cstrParams)]. *)
Definition syncParameters (cstrParams : CSTRParameters num)
    (simulatorRef : option (CSTRSimulator num))
    : option (CSTRSimulator num) :=
  match simulatorRef with
  | Some simulator =>
      Some (execState (updateParameters (as_partial cstrParams)) simulator)
  | None => None
  end.

(** *** [MiniGraph]: the coordinates of the plotted points

    [Math.min(...data)] and [Math.max(...data)] are library calls, used
    only when the [min] or [max] property is missing. *)

Section MiniGraph.
Variable Math_min Math_max : list num -> num.
Variable min max : option num.
Variable data : list num.

(** [min ?? Math.min(...data)] *)
Definition dataMin : num :=
  match min with
  | Some m => m
  | None => Math_min data
  end.

Definition dataMax : num :=
  match max with
  | Some m => m
  | None => Math_max data
  end.

(** [dataMax - dataMin || 1] *)
Definition range : num := num_or (dataMax - dataMin) #1.

(** The point drawn for the value [val] at index [i]:
    [(i / (data.length - 1)) * 100] and
    [50 - ((val - dataMin) / range) * 30]. *)
Definition point_x (i : nat) : num :=
  lit (inject_Z (Z.of_nat i))
  / (lit (inject_Z (Z.of_nat (length data))) - #1) * #100.

Definition point_y (val : num) : num :=
  #50 - (val - dataMin) / range * #30.
End MiniGraph.
End App.

Arguments ParameterHistory : clear implicits.

(** Some implementation of the two library calls in binary64, to run
    [step] on concrete inputs in statements that hold for every
    implementation. *)
Definition constant_MathLib : MathLib float :=
  {| Math_exp := fun _ => PrimFloat.one;
     Math_pow := fun _ _ => PrimFloat.one |}.

(** The scenario's state with a volume that is not a number. *)
Definition nan_volume_state : CSTRState float :=
  {| volume := PrimFloat.nan; concentration := lit 0.5;
     temperature := lit 350; jacketTemp := lit 300; time := lit 0 |}.

(** The scenario with a valve constant and a minimum volume of [2^-600],
    and an empty reactor. *)
Definition tiny_valve_params : CSTRParameters float :=
  {| inletFlowRate := lit 1.0; feedConcentration := lit 0.5;
     feedTemperature := lit 350; jacketInletTemp := lit 300;
     valveConstant := 0x1p-600%float; minimumVolume := 0x1p-600%float;
     preExponentialFactor := lit 1.0; activationEnergy := lit 10000;
     gasConstant := lit 8.314; reactionOrder := lit 2;
     density := lit 1000; heatCapacity := lit 4.18; heatOfReaction := lit 1.0;
     heatTransferCoeff := lit 100; heatTransferArea := lit 1.0;
     jacketDensity := lit 1000; jacketHeatCapacity := lit 4.18;
     jacketVolume := lit 0.1; jacketFlowRate := lit 0.1 |}.

Definition empty_state : CSTRState float :=
  {| volume := lit 0; concentration := lit 0.5; temperature := lit 350;
     jacketTemp := lit 300; time := lit 0 |}.


(** ** Binary64 numbers as real numbers

    The kernel specifies the primitive float operations on [spec_float]
    ([FloatAxioms]): a finite number is a sign, a mantissa [m] and an
    exponent [e] and denotes [± m · 2^e].  The definitions below give that
    value and the shapes the statements about signs and bounds need. *)

Definition bpow (e : Z) : R := powerRZ 2 e.

(** The magnitude [m · 2^e]. *)
Definition mag (m : positive) (e : Z) : R := (IZR (Zpos m) * bpow e)%R.

(** The value of a finite number or a zero (0 for the others). *)
Definition sf_val (s : spec_float) : R :=
  match s with
  | S754_finite sg m e => ((if sg then -1 else 1) * IZR (Zpos m) * bpow e)%R
  | _ => 0%R
  end.

(** The exponent binary64 gives a number of magnitude below [2^e]. *)
Definition fexp64 (e : Z) : Z := SpecFloat.fexp prec emax e.

Definition sf_finite (s : spec_float) : Prop :=
  match s with
  | S754_zero _ | S754_finite _ _ _ => True
  | _ => False
  end.


Definition sf_nonzero (s : spec_float) : Prop :=
  match s with S754_zero _ => False | _ => True end.


(** Not [NaN], with the sign bit [b]. *)
Definition sf_signed (b : bool) (s : spec_float) : Prop :=
  match s with
  | S754_nan => False
  | S754_zero s' | S754_infinity s' | S754_finite s' _ _ => s' = b
  end.

(** Strictly negative, strictly positive. *)
Definition sf_negative (s : spec_float) : Prop :=
  match s with
  | S754_infinity true | S754_finite true _ _ => True
  | _ => False
  end.

Definition sf_positive (s : spec_float) : Prop :=
  match s with
  | S754_infinity false | S754_finite false _ _ => True
  | _ => False
  end.



(** What the right shift of the rounding function has dropped. *)
Definition shr_inexact (mrs : shr_record) : bool :=
  (shr_r mrs || shr_s mrs)%bool.

(** [x'] is [x] shifted right by [k] bits: its mantissa is the quotient
    by [2^k], and it is marked inexact only if bits were lost, now or
    before. *)
Definition shifted (k : Z) (x x' : shr_record) : Prop :=
  (0 <= shr_m x')%Z
  /\ (shr_m x' * 2 ^ k <= shr_m x < (shr_m x' + 1) * 2 ^ k)%Z
  /\ (shr_inexact x' = true ->
      (shr_m x' * 2 ^ k < shr_m x)%Z \/ shr_inexact x = true).



(** Unfold the operators of [Exact] and the decimal literals, for [lra],
    [ring] and [field]. *)
Ltac exact_arith :=
  cbn [num_add num_sub num_mul num_div num_neg lit num_gt num_eq Exact] in *;
  unfold Q2R in *; cbn [Qnum Qden] in *.

(** * Properties that hold in every arithmetic *)

Section ModelFacts.
Context {num : Type} {N : Number num} {ML : MathLib num}.
Local Open Scope num_scope.

Local Abbreviation Sim := (CSTRSimulator num).

Lemma runState_step (this : Sim) :
  runState step this =
  (spec_step this.(params) this.(dt) this.(state),
   {| state := spec_step this.(params) this.(dt) this.(state);
      params := this.(params); dt := this.(dt) |}).
Proof.
  destruct this as [[V CA T TJ t] p h]. reflexivity.
Qed.

(** From here on [step] is used through [runState_step] only. *)
#[local] Opaque step.

Lemma execState_step (this : Sim) :
  execState step this =
  {| state := spec_step this.(params) this.(dt) this.(state);
     params := this.(params); dt := this.(dt) |}.
Proof.
  unfold execState. rewrite runState_step. reflexivity.
Qed.

Lemma evalState_step (this : Sim) :
  evalState step this = spec_step this.(params) this.(dt) this.(state).
Proof.
  unfold evalState. rewrite runState_step. reflexivity.
Qed.

(** The methods compute the specification's formulas on the current
    state vector and parameters. *)

Lemma getOutletFlowRate_formula (this : Sim) :
  getOutletFlowRate this = spec_F this.(params) (vector_of this.(state)).
Proof. reflexivity. Qed.

Lemma getReactionRateValue_formula (this : Sim) :
  getReactionRateValue this = spec_r this.(params) (vector_of this.(state)).
Proof. reflexivity. Qed.

Lemma derivatives_formula (this : Sim) :
  mkVec4 (volumeDerivative this) (concentrationDerivative this)
         (temperatureDerivative this) (jacketTempDerivative this)
  = spec_f this.(params) (vector_of this.(state)).
Proof. reflexivity. Qed.

(** **** C1
    For every state [x0 = (V, CA, T, TJ)] and every parameter set, [step]
    performs exactly one classical RK4 step: with [k1 = dt·f(x0)],
    [k2 = dt·f(x0 + k1/2)], [k3 = dt·f(x0 + k2/2)], [k4 = dt·f(x0 + k3)],
    every stage being evaluated at the original state perturbed by the
    previous increment, the new state vector is
    [x0 + (k1 + 2·k2 + 2·k3 + k4)/6].  The object after the call holds that
    vector, the time advanced by [dt] and the parameters and [dt] it had:
    nothing of a stage state remains but through the final combination, and
    the returned value is a copy of the new state. *)
Theorem step_is_classical_RK4 (this : Sim) :
  let x0 := vector_of this.(state) in
  let h := this.(dt) in
  let f := spec_f this.(params) in
  let k1 := vec_scale h (f x0) in
  let k2 := vec_scale h (f (vec_add x0 (vec_div k1 #2))) in
  let k3 := vec_scale h (f (vec_add x0 (vec_div k2 #2))) in
  let k4 := vec_scale h (f (vec_add x0 k3)) in
  let x1 :=
    vec_add x0
      (vec_div
         (vec_add (vec_add (vec_add k1 (vec_scale #2 k2)) (vec_scale #2 k3))
                  k4)
         #6) in
  let returned := fst (runState step this) in
  let this' := snd (runState step this) in
  this' = {| state := {| volume := x1.(x_V); concentration := x1.(x_CA);
                         temperature := x1.(x_T); jacketTemp := x1.(x_TJ);
                         time := this.(state).(time) + h |};
             params := this.(params); dt := this.(dt) |}
  /\ returned = this'.(state).
Proof.
  intros. subst returned this'. rewrite runState_step. split; reflexivity.
Qed.

(** **** C2
    For every state and parameter set, the derivative functions the
    integrator evaluates are the specification's formulas: with
    [F = KV·(V − Vmin)], [k = α·exp(−E/(R·T))] and [r = k·CA^n],
    [dV/dt = F0 − F], [dCA/dt = (F0·CA0 − F·CA − V·r)/V],
    [dT/dt = (ρCp·(F0·T0 − F·T) − λ·V·r − U·AH·(T − TJ))/(ρCp·V)] and
    [dTJ/dt = (FJ·ρJCJ·(TJ0 − TJ) + U·AH·(T − TJ))/(ρJCJ·VJ)]. *)
Theorem derivatives_match_formulas (this : Sim) :
  let p := this.(params) in
  let x := vector_of this.(state) in
  getOutletFlowRate this = spec_F p x
  /\ calculateRateConstant this = spec_k p x
  /\ getReactionRateValue this = spec_r p x
  /\ volumeDerivative this = spec_dV p x
  /\ concentrationDerivative this = spec_dCA p x
  /\ temperatureDerivative this = spec_dT p x
  /\ jacketTempDerivative this = spec_dTJ p x.
Proof.
  cbv zeta. repeat split.
Qed.

(** *** Diagnostics *)


Lemma getResidenceTime_test (this : Sim) :
  let V := this.(state).(volume) in
  let F :=
    this.(params).(valveConstant) * (V - this.(params).(minimumVolume)) in
  ((F > #0) = true -> getResidenceTime this = V / F)
  /\ ((F > #0) = false -> getResidenceTime this = #0).
Proof.
  intros V F. unfold getResidenceTime, getOutletFlowRate. cbv zeta.
  fold V F. destruct (F > #0); split; intros E;
    try reflexivity; discriminate E.
Qed.

(** *** Time *)

Lemma execState_perform_step (this : Sim) :
  execState (perform call_step) this = execState step this.
Proof.
  unfold execState. cbn [perform bind Monad_state runState].
  destruct (runState step this) as [returned this']. reflexivity.
Qed.

Lemma perform_time_dt (c : Call num) (this : Sim) :
  (execState (perform c) this).(state).(time)
  = (if is_step c then this.(state).(time) + this.(dt)
     else this.(state).(time))
  /\ (execState (perform c) this).(dt) = this.(dt).
Proof.
  destruct c;
    [rewrite execState_perform_step, execState_step|..]; split; reflexivity.
Qed.

Lemma execState_perform_all_cons (c : Call num) (cs : list (Call num))
    (this : Sim) :
  execState (perform_all (c :: cs)) this
  = execState (perform_all cs) (execState (perform c) this).
Proof.
  unfold execState. simpl.
  destruct (runState (perform c) this) as [u this1]. reflexivity.
Qed.

Lemma add_repeatedly_shift (n : nat) (h t : num) :
  add_repeatedly n h (t + h) = add_repeatedly n h t + h.
Proof.
  induction n as [|n IH]; [reflexivity|].
  cbn [add_repeatedly]. rewrite IH. reflexivity.
Qed.

Lemma perform_all_time_dt (cs : list (Call num)) (this : Sim) :
  (execState (perform_all cs) this).(state).(time)
  = add_repeatedly (count_steps cs) this.(dt) this.(state).(time)
  /\ (execState (perform_all cs) this).(dt) = this.(dt).
Proof.
  revert this. induction cs as [|c cs IH]; intros this.
  - split; reflexivity.
  - rewrite execState_perform_all_cons.
    destruct (IH (execState (perform c) this)) as [Ht Hd].
    destruct (perform_time_dt c this) as [Ht1 Hd1].
    rewrite Ht, Hd, Ht1, Hd1. split; [|reflexivity].
    unfold count_steps. cbn [filter].
    destruct (is_step c); [|reflexivity].
    cbn [length add_repeatedly]. apply add_repeatedly_shift.
Qed.

Lemma steps_time_dt (n : nat) (this : Sim) :
  (steps n this).(state).(time)
  = add_repeatedly n this.(dt) this.(state).(time)
  /\ (steps n this).(dt) = this.(dt).
Proof.
  induction n as [|n [Ht Hd]]; [split; reflexivity|].
  cbn [steps add_repeatedly].
  rewrite execState_step. cbn [dt state spec_step time].
  rewrite Ht, Hd. split; reflexivity.
Qed.

Lemma steps_params (n : nat) (this : Sim) :
  (steps n this).(params) = this.(params).
Proof.
  induction n as [|n IH]; [reflexivity|].
  cbn [steps]. rewrite execState_step. exact IH.
Qed.

(** **** C3
    [dt] is a constant of the model, the literal [0.1] set at
    construction, which no call changes, whatever the parameters; every
    call of [step] adds that constant to [state.time]; no other call
    changes the time; hence after any sequence of calls, and in particular
    after [n] calls of [step], the time is the initial time with [dt] added
    once per step, one addition after the other. *)
Theorem time_advances_by_dt :
  (forall (init : CSTRState num) (parameters : CSTRParameters num),
     (new init parameters).(dt) = #0.1)
  /\ (forall (c : Call num) (this : Sim),
        (execState (perform c) this).(dt) = this.(dt)
        /\ (execState (perform c) this).(state).(time)
           = if is_step c then this.(state).(time) + this.(dt)
             else this.(state).(time))
  /\ (forall (n : nat) (this : Sim),
        (steps n this).(state).(time)
        = add_repeatedly n this.(dt) this.(state).(time))
  /\ (forall (init : CSTRState num) (parameters : CSTRParameters num)
        (cs : list (Call num)),
        let this' := execState (perform_all cs) (new init parameters) in
        this'.(dt) = #0.1
        /\ this'.(state).(time)
           = add_repeatedly (count_steps cs) #0.1 init.(time)).
Proof.
  split; [reflexivity|]. split; [|split].
  - intros c this. destruct (perform_time_dt c this). split; assumption.
  - intros n this. apply steps_time_dt.
  - intros init parameters cs this'. subst this'.
    destruct (perform_all_time_dt cs (new init parameters)) as [Ht Hd].
    split; assumption.
Qed.

(** *** Parameter updates *)

Lemma execState_updateParameters (np : PartialCSTRParameters num)
    (this : Sim) :
  execState (updateParameters np) this
  = {| state := this.(state);
       params := spread_params this.(params) np;
       dt := this.(dt) |}.
Proof. reflexivity. Qed.

Lemma spread_params_property (k : ParameterName)
    (p : CSTRParameters num) (np : PartialCSTRParameters num) :
  property k (spread_params p np)
  = match own_property k np with
    | Some v => v
    | None => property k p
    end.
Proof. destruct k; reflexivity. Qed.

(** **** C4
    For every parameter set, every partial record and every state,
    [updateParameters] replaces exactly the properties the partial record
    has and keeps every other one, leaves the five state fields (and [dt])
    as they were, and the next [step] is the RK4 step of the unchanged
    state under the merged parameters. *)
Theorem updateParameters_merges (np : PartialCSTRParameters num)
    (this : Sim) :
  let this' := execState (updateParameters np) this in
  (forall k : ParameterName,
     property k this'.(params)
     = match own_property k np with
       | Some v => v
       | None => property k this.(params)
       end)
  /\ this'.(state) = this.(state)
  /\ this'.(dt) = this.(dt)
  /\ evalState step this' = spec_step this'.(params) this.(dt) this.(state)
  /\ mkVec4 (volumeDerivative this') (concentrationDerivative this')
            (temperatureDerivative this') (jacketTempDerivative this')
     = spec_f this'.(params) (vector_of this.(state)).
Proof.
  intros this'. subst this'. rewrite execState_updateParameters. simpl.
  split; [intros k; apply spread_params_property|].
  split; [reflexivity|]. split; [reflexivity|].
  split; [rewrite evalState_step; reflexivity | reflexivity].
Qed.

(** *** The volume equation is autonomous *)

Lemma step_volume (this : Sim) :
  (execState step this).(state).(volume)
  = volume_rk4 this.(dt) this.(params).(inletFlowRate)
      this.(params).(valveConstant) this.(params).(minimumVolume)
      this.(state).(volume).
Proof.
  rewrite execState_step. destruct this as [[V CA T TJ t] p h]. reflexivity.
Qed.

Lemma step_volume_agree (this1 this2 : Sim) :
  this1.(state).(volume) = this2.(state).(volume) ->
  this1.(params).(inletFlowRate) = this2.(params).(inletFlowRate) ->
  this1.(params).(valveConstant) = this2.(params).(valveConstant) ->
  this1.(params).(minimumVolume) = this2.(params).(minimumVolume) ->
  this1.(dt) = this2.(dt) ->
  (execState step this1).(state).(volume)
  = (execState step this2).(state).(volume)
  /\ (evalState step this1).(volume) = (evalState step this2).(volume).
Proof.
  intros HV HF0 HKV HVmin Hdt.
  assert (E : (execState step this1).(state).(volume)
              = (execState step this2).(state).(volume)).
  { rewrite !step_volume. rewrite HV, HF0, HKV, HVmin, Hdt. reflexivity. }
  split; [exact E|].
  rewrite !evalState_step. rewrite !execState_step in E. exact E.
Qed.

(** **** C10
    The volume after one [step] depends only on the current volume, on
    [inletFlowRate], [valveConstant], [minimumVolume] and on [dt]: two
    simulator objects that agree on these produce the same new volume,
    whatever their concentrations, temperatures, jacket temperatures and
    other parameters, both in the object and in the returned state.  Two
    simulators built by the constructor, whatever was called on them
    since, always agree on [dt]. *)
Theorem step_volume_depends_only_on_volume_inputs :
  (forall this1 this2 : Sim,
     this1.(state).(volume) = this2.(state).(volume) ->
     this1.(params).(inletFlowRate) = this2.(params).(inletFlowRate) ->
     this1.(params).(valveConstant) = this2.(params).(valveConstant) ->
     this1.(params).(minimumVolume) = this2.(params).(minimumVolume) ->
     this1.(dt) = this2.(dt) ->
     (execState step this1).(state).(volume)
     = (execState step this2).(state).(volume)
     /\ (evalState step this1).(volume) = (evalState step this2).(volume))
  /\ (forall (init1 init2 : CSTRState num) (p1 p2 : CSTRParameters num)
        (cs1 cs2 : list (Call num)),
        let this1 := execState (perform_all cs1) (new init1 p1) in
        let this2 := execState (perform_all cs2) (new init2 p2) in
        this1.(state).(volume) = this2.(state).(volume) ->
        this1.(params).(inletFlowRate) = this2.(params).(inletFlowRate) ->
        this1.(params).(valveConstant) = this2.(params).(valveConstant) ->
        this1.(params).(minimumVolume) = this2.(params).(minimumVolume) ->
        (execState step this1).(state).(volume)
        = (execState step this2).(state).(volume)
        /\ (evalState step this1).(volume) = (evalState step this2).(volume)).
Proof.
  split; [exact step_volume_agree|].
  intros init1 init2 p1 p2 cs1 cs2 this1 this2 HV HF0 HKV HVmin.
  apply step_volume_agree; try assumption.
  subst this1 this2.
  rewrite (proj2 (perform_all_time_dt cs1 (new init1 p1))).
  rewrite (proj2 (perform_all_time_dt cs2 (new init2 p2))).
  reflexivity.
Qed.

End ModelFacts.

(** * Properties of the binary64 instance *)

Section Binary64Facts.
Local Open Scope num_scope.

Lemma float_lit_dt : (#0.1 : float) = 0x1.999999999999ap-4%float.
Proof. reflexivity. Qed.

Lemma scenario_outlet_flow_binary64 :
  getOutletFlow (new (num := float) scenario_state scenario_params)
  = 0x1.70a3d70a3d70bp-4%float.
Proof. reflexivity. Qed.

Lemma literal_009_binary64 : (#0.09 : float) = 0x1.70a3d70a3d70ap-4%float.
Proof. reflexivity. Qed.

Lemma lit_0_binary64 : (#0 : float) = PrimFloat.zero.
Proof. reflexivity. Qed.

(** A double that is negative or equal to zero (either zero) is not
    greater than zero. *)
Lemma binary64_not_gt_zero (x : float) :
  (#0 > x) = true \/ (x === #0) = true -> (x > #0) = false.
Proof.
  rewrite lit_0_binary64. cbn [num_gt num_eq Binary64].
  rewrite !FloatAxioms.ltb_spec, FloatAxioms.eqb_spec.
  change (Prim2SF PrimFloat.zero) with (S754_zero false).
  unfold SFltb, SFeqb, SFcompare.
  destruct (Prim2SF x) as [s|s| |s m e]; try destruct s;
    intuition discriminate.
Qed.

(** The diagnostics of the scenario, run in binary64. *)

Example scenario_conversion_binary64 :
  getConversion (new (num := float) scenario_state scenario_params) = #0.
Proof. reflexivity. Qed.

Example diluted_conversion_binary64 :
  getConversion (new (num := float) diluted_state scenario_params) = #50.
Proof. reflexivity. Qed.

Example scenario_heat_removal_binary64 :
  getHeatRemovalRate (new (num := float) scenario_state scenario_params) = #5.
Proof. reflexivity. Qed.

Example closed_valve_residence_time_binary64 :
  getResidenceTime (new (num := float) low_level_state closed_valve_params)
  = #0.
Proof. reflexivity. Qed.

(** Six successive additions of [0.1] to [0] give the double [0.6], while
    the product [6 * 0.1] is the next double above it: the accumulated
    time is not the recomputed one. *)
Example accumulated_time_binary64 :
  add_repeatedly 6 (#0.1 : float) #0 = #0.6
  /\ ((#0 + #6 * #0.1 : float) === #0.6) = false.
Proof. split; reflexivity. Qed.

End Binary64Facts.

(** * Properties in exact arithmetic

    [Math.exp] and [Math.pow] are arbitrary real functions here: the
    statements hold for each choice. *)

Section ExactFacts.
Context {ML : MathLib R}.
Local Open Scope R_scope.

Local Abbreviation SimR := (CSTRSimulator R).

Lemma lit_0 : lit 0 = 0.
Proof. exact_arith. lra. Qed.

Lemma lit_100 : lit 100 = 100.
Proof. exact_arith. lra. Qed.

Lemma num_gt_true (a b : R) : num_gt a b = true <-> b < a.
Proof.
  exact_arith. destruct (Rlt_dec b a); split; intros; try assumption;
    try reflexivity; try discriminate; contradiction.
Qed.

Lemma num_eq_true (a b : R) : num_eq a b = true <-> a = b.
Proof.
  exact_arith. destruct (Req_dec_T a b); split; intros; try assumption;
    try reflexivity; try discriminate; contradiction.
Qed.

Lemma getOutletFlowRate_exact (this : SimR) :
  getOutletFlowRate this
  = this.(params).(valveConstant)
    * (this.(state).(volume) - this.(params).(minimumVolume)).
Proof. reflexivity. Qed.


Lemma getConversion_nonzero_feed (this : SimR) :
  this.(params).(feedConcentration) <> 0 ->
  getConversion this
  = (this.(params).(feedConcentration) - this.(state).(concentration))
    / this.(params).(feedConcentration) * 100.
Proof.
  intros H0. unfold getConversion.
  destruct (num_eq _ _) eqn:E.
  - apply num_eq_true in E. rewrite lit_0 in E. contradiction.
  - rewrite lit_100. reflexivity.
Qed.


Lemma getResidenceTime_exact (this : SimR) :
  let V := this.(state).(volume) in
  let F := this.(params).(valveConstant) * (V - this.(params).(minimumVolume)) in
  (0 < F -> getResidenceTime this = V / F)
  /\ (F <= 0 -> getResidenceTime this = 0).
Proof.
  intros V F. unfold getResidenceTime. cbv zeta.
  rewrite getOutletFlowRate_exact. fold V F.
  destruct (num_gt F (lit 0)) eqn:E.
  - apply num_gt_true in E. rewrite lit_0 in E.
    split; [reflexivity | lra].
  - split; [|intros _; apply lit_0].
    intros HF. rewrite <- lit_0 in HF. apply num_gt_true in HF. congruence.
Qed.

(** In exact arithmetic the outlet flow is strictly negative whenever
    [V < Vmin] and the valve constant [KV] is positive. *)
Lemma getOutletFlow_exact_sign (this : SimR) :
  0 < this.(params).(valveConstant) ->
  this.(state).(volume) < this.(params).(minimumVolume) ->
  getOutletFlow this < 0.
Proof.
  intros HKV HV. unfold getOutletFlow. rewrite getOutletFlowRate_exact.
  rewrite <- (Rmult_0_r this.(params).(valveConstant)).
  apply Rmult_lt_compat_l; lra.
Qed.

(** *** The steady state without reaction *)

Lemma volume_rk4_at_rest (h F0 KV Vmin V : R) :
  F0 - KV * (V - Vmin) = 0 -> volume_rk4 h F0 KV Vmin V = V.
Proof.
  intros H0. unfold volume_rk4. cbv beta zeta. exact_arith.
  assert (E1 : h * (F0 - KV * (V - Vmin)) = 0) by (rewrite H0; ring).
  assert (E2 : V + 0 / (2 * / 1) = V) by (unfold Rdiv; ring).
  repeat (rewrite ?E1, ?E2, ?Rplus_0_r). unfold Rdiv. ring.
Qed.



(** At rest and without reaction, the first two components of [f]. *)
Lemma spec_f_no_reaction (p : CSTRParameters R) (V : R) (y : Vec4 R) :
  p.(preExponentialFactor) = 0 ->
  p.(inletFlowRate) - p.(valveConstant) * (V - p.(minimumVolume)) = 0 ->
  y.(x_V) = V ->
  (spec_f p y).(x_V) = 0
  /\ (spec_f p y).(x_CA)
     = (p.(inletFlowRate) * p.(feedConcentration)
        - p.(inletFlowRate) * y.(x_CA)) / V.
Proof.
  intros Ha H0 HV.
  unfold spec_f, spec_dV, spec_dCA, spec_r, spec_k, spec_F.
  cbn [x_V x_CA]. rewrite HV, Ha.
  cbn [num_add num_sub num_mul num_div Exact].
  assert (EF : p.(valveConstant) * (V - p.(minimumVolume))
               = p.(inletFlowRate)) by lra.
  rewrite EF. split; [ring|].
  rewrite !Rmult_0_l, Rmult_0_r, Rminus_0_r. reflexivity.
Qed.

Lemma spec_rk4_no_reaction (p : CSTRParameters R) (h : R) (x0 : Vec4 R) :
  p.(preExponentialFactor) = 0 ->
  p.(inletFlowRate)
  - p.(valveConstant) * (x0.(x_V) - p.(minimumVolume)) = 0 ->
  (spec_rk4 p h x0).(x_CA)
  = dilution_rk4 h p.(inletFlowRate) p.(feedConcentration)
      x0.(x_V) x0.(x_CA).
Proof.
  intros Ha H0.
  pose proof (fun y => spec_f_no_reaction p y Ha H0) as Hf.
  unfold spec_rk4, dilution_rk4. cbv beta zeta.
  set (k1 := vec_scale h (spec_f p x0)).
  set (y2 := vec_add x0 (vec_div k1 (lit 2))).
  set (k2 := vec_scale h (spec_f p y2)).
  set (y3 := vec_add x0 (vec_div k2 (lit 2))).
  set (k3 := vec_scale h (spec_f p y3)).
  set (y4 := vec_add x0 k3).
  set (k4 := vec_scale h (spec_f p y4)).
  destruct (Hf x0 eq_refl) as [V1 C1].
  assert (E2 : y2.(x_V) = x0.(x_V)).
  { subst y2 k1. cbn [x_V vec_add vec_div vec_scale]. rewrite V1.
    cbn [num_add num_mul num_div Exact]. unfold Rdiv. ring. }
  destruct (Hf y2 E2) as [V2 C2].
  assert (E3 : y3.(x_V) = x0.(x_V)).
  { subst y3 k2. cbn [x_V vec_add vec_div vec_scale]. rewrite V2.
    cbn [num_add num_mul num_div Exact]. unfold Rdiv. ring. }
  destruct (Hf y3 E3) as [V3 C3].
  assert (E4 : y4.(x_V) = x0.(x_V)).
  { subst y4 k3. cbn [x_V vec_add vec_scale]. rewrite V3.
    cbn [num_add num_mul Exact]. ring. }
  destruct (Hf y4 E4) as [V4 C4].
  subst k4. cbn [x_CA vec_add vec_div vec_scale]. rewrite C4.
  subst y4 k3. cbn [x_CA vec_add vec_div vec_scale]. rewrite C3.
  subst y3 k2. cbn [x_CA vec_add vec_div vec_scale]. rewrite C2.
  subst y2 k1. cbn [x_CA vec_add vec_div vec_scale]. rewrite C1.
  reflexivity.
Qed.

Lemma step_concentration_no_reaction (this : SimR) :
  this.(params).(preExponentialFactor) = 0 ->
  this.(params).(inletFlowRate)
  - this.(params).(valveConstant)
    * (this.(state).(volume) - this.(params).(minimumVolume)) = 0 ->
  (execState step this).(state).(concentration)
  = dilution_rk4 this.(dt) this.(params).(inletFlowRate)
      this.(params).(feedConcentration) this.(state).(volume)
      this.(state).(concentration).
Proof.
  intros Ha H0. rewrite execState_step.
  unfold spec_step. cbn [state concentration].
  apply (spec_rk4_no_reaction this.(params) this.(dt)
           (vector_of this.(state)) Ha H0).
Qed.


End ExactFacts.

(** * The program in both arithmetics, and concrete runs *)

Section Concrete.
Local Open Scope R_scope.

Local Abbreviation newR := (new (num := R)).
Local Abbreviation newF := (new (num := float)).

(** **** C9
    [getResidenceTime] returns [V/F] when the outlet flow
    [F = KV·(V − Vmin)] is strictly positive, and [0] when [F] is zero or
    negative: in exact arithmetic and in binary64. *)
Theorem getResidenceTime_cases :
  (forall this : CSTRSimulator R,
     let V := this.(state).(volume) in
     let F :=
       this.(params).(valveConstant) * (V - this.(params).(minimumVolume)) in
     (0 < F -> getResidenceTime this = V / F)
     /\ (F <= 0 -> getResidenceTime this = 0))
  /\ (forall this : CSTRSimulator float,
        let V := this.(state).(volume) in
        let F :=
          num_mul this.(params).(valveConstant)
                  (num_sub V this.(params).(minimumVolume)) in
        (num_gt F (lit 0) = true -> getResidenceTime this = num_div V F)
        /\ (num_gt (lit 0) F = true \/ num_eq F (lit 0) = true ->
            getResidenceTime this = lit 0)).
Proof.
  split.
  - exact getResidenceTime_exact.
  - intros this V F.
    destruct (getResidenceTime_test this) as [Hpos Hnot].
    split; [exact Hpos|].
    intros HF. apply Hnot. apply binary64_not_gt_zero. exact HF.
Qed.


(** **** C6, as stated, fails
    With the valve closed ([KV = 0]) and the level below the minimum
    volume, the outlet flow is zero, not strictly negative: in exact
    arithmetic, and in binary64 (where it is [-0]).  In binary64 a
    positive valve constant does not help when the product underflows:
    with [KV = Vmin = 2^-600] and [V = 0] the outlet flow is [-0], and
    [-0 < 0] is false. *)
Lemma closed_valve_outlet_flow_not_negative :
  (newR low_level_state closed_valve_params).(state).(volume)
  < (newR low_level_state closed_valve_params).(params).(minimumVolume)
  /\ ~ (getOutletFlow (newR low_level_state closed_valve_params) < 0)
  /\ num_gt (newF low_level_state closed_valve_params).(params).(minimumVolume)
            (newF low_level_state closed_valve_params).(state).(volume) = true
  /\ num_gt (lit 0) (getOutletFlow (newF low_level_state closed_valve_params))
     = false
  /\ num_gt (newF empty_state tiny_valve_params).(params).(valveConstant)
            (lit 0) = true
  /\ num_gt (newF empty_state tiny_valve_params).(params).(minimumVolume)
            (newF empty_state tiny_valve_params).(state).(volume) = true
  /\ num_gt (lit 0) (getOutletFlow (newF empty_state tiny_valve_params))
     = false
  /\ getOutletFlow (newF empty_state tiny_valve_params) = neg_zero.
Proof.
  split; [cbn; exact_arith; lra|].
  split; [|repeat split; reflexivity].
  unfold getOutletFlow. rewrite getOutletFlowRate_exact.
  cbn. exact_arith. lra.
Qed.

Lemma getResidenceTime_cases_witness :
  getResidenceTime (newR scenario_state scenario_params) = 1 / 0.09
  /\ getResidenceTime (newR low_level_state closed_valve_params) = 0
  /\ getResidenceTime (newF scenario_state scenario_params)
     = num_div (lit 1.0) (getOutletFlow (newF scenario_state scenario_params))
  /\ getResidenceTime (newF low_level_state closed_valve_params) = lit 0
  /\ getResidenceTime (newF low_level_state scenario_params) = lit 0.
Proof.
  destruct getResidenceTime_cases as [HR HF].
  split; [|split; [|split; [|split]]].
  - rewrite (proj1 (HR (newR scenario_state scenario_params)));
      cbn; exact_arith; lra.
  - apply (HR (newR low_level_state closed_valve_params)).
    cbn. exact_arith. lra.
  - apply (HF (newF scenario_state scenario_params)). reflexivity.
  - apply (HF (newF low_level_state closed_valve_params)).
    right. reflexivity.
  - apply (HF (newF low_level_state scenario_params)).
    left. reflexivity.
Defined.


(** **** C8, as stated, fails
    In the scenario the outlet flow the program computes before the first
    step is the binary64 product [0.1 * (1.0 - 0.1)], which is not the
    number denoted by [0.09]: [getOutletFlow() === 0.09] is false. *)
Lemma scenario_outlet_flow_is_not_009 :
  num_eq (getOutletFlow (newF scenario_state scenario_params)) (lit 0.09)
  = false
  /\ getOutletFlow (newF scenario_state scenario_params) <> lit 0.09.
Proof.
  split; [reflexivity|].
  intros H.
  assert (E : num_eq (getOutletFlow (newF scenario_state scenario_params))
                     (lit 0.09) = num_eq (lit 0.09 : float) (lit 0.09))
    by (rewrite H; reflexivity).
  vm_compute in E. discriminate E.
Qed.

(** **** C8 (amended)
    In the scenario, before the first [step]: the outlet flow is the
    binary64 value of [0.1 * (1.0 - 0.1)], the double next above the one
    denoted by [0.09] (printed [0.09000000000000001]), and the volume
    derivative is the double denoted by [0.91]; in exact arithmetic the
    two values are [0.09] and [0.91]. *)
Theorem scenario_initial_outlet_flow_and_volume_derivative :
  getOutletFlow (newF scenario_state scenario_params)
  = PrimFloat.mul (lit 0.1) (PrimFloat.sub (lit 1.0) (lit 0.1))
  /\ getOutletFlow (newF scenario_state scenario_params)
     = PrimFloat.next_up (lit 0.09)
  /\ getOutletFlow (newF scenario_state scenario_params)
     = 0x1.70a3d70a3d70bp-4%float
  /\ volumeDerivative (newF scenario_state scenario_params) = lit 0.91
  /\ getOutletFlow (newR scenario_state scenario_params) = 0.09
  /\ volumeDerivative (newR scenario_state scenario_params) = 0.91.
Proof.
  repeat split; try reflexivity.
  - unfold getOutletFlow. rewrite getOutletFlowRate_exact.
    cbn. exact_arith. lra.
  - unfold volumeDerivative. cbv zeta. rewrite getOutletFlowRate_exact.
    cbn. exact_arith. lra.
Qed.

Lemma step_volume_depends_only_on_volume_inputs_witness :
  ((execState (step (ML := real_MathLib))
      (newR scenario_state scenario_params)).(state).(volume)
   = (execState (step (ML := real_MathLib))
        (newR other_state other_params)).(state).(volume)
   /\ (evalState (step (ML := real_MathLib))
         (newR scenario_state scenario_params)).(volume)
      = (evalState (step (ML := real_MathLib))
           (newR other_state other_params)).(volume))
  /\ (execState (step (ML := real_MathLib))
        (execState (perform_all (ML := real_MathLib) [call_getConversion])
           (newR scenario_state scenario_params))).(state).(volume)
     = (execState (step (ML := real_MathLib))
          (execState (perform_all (ML := real_MathLib) [])
             (newR other_state other_params))).(state).(volume).
Proof.
  split.
  - apply (proj1 (step_volume_depends_only_on_volume_inputs
                    (ML := real_MathLib))
             (newR scenario_state scenario_params)
             (newR other_state other_params)); reflexivity.
  - pose proof (proj2 (step_volume_depends_only_on_volume_inputs
                         (ML := real_MathLib))
                  scenario_state other_state scenario_params other_params
                  [call_getConversion] []) as H.
    cbv zeta in H. refine (proj1 (H _ _ _ _)); reflexivity.
Defined.

End Concrete.

(** * Further properties of the simulator and of its caller *)

Section UpdateFacts.
Context {num : Type} {N : Number num}.
Local Open Scope num_scope.

Local Abbreviation Sim := (CSTRSimulator num).

Lemma parameters_ext (p q : CSTRParameters num) :
  (forall k : ParameterName, property k p = property k q) -> p = q.
Proof.
  intros H. destruct p, q.
  pose proof (H name_inletFlowRate). pose proof (H name_feedConcentration).
  pose proof (H name_feedTemperature). pose proof (H name_jacketInletTemp).
  pose proof (H name_valveConstant). pose proof (H name_minimumVolume).
  pose proof (H name_preExponentialFactor).
  pose proof (H name_activationEnergy). pose proof (H name_gasConstant).
  pose proof (H name_reactionOrder). pose proof (H name_density).
  pose proof (H name_heatCapacity). pose proof (H name_heatOfReaction).
  pose proof (H name_heatTransferCoeff). pose proof (H name_heatTransferArea).
  pose proof (H name_jacketDensity). pose proof (H name_jacketHeatCapacity).
  pose proof (H name_jacketVolume). pose proof (H name_jacketFlowRate).
  cbn [property] in *.
  cbn [inletFlowRate feedConcentration feedTemperature jacketInletTemp
       valveConstant minimumVolume preExponentialFactor activationEnergy
       gasConstant reactionOrder density heatCapacity heatOfReaction
       heatTransferCoeff heatTransferArea jacketDensity jacketHeatCapacity
       jacketVolume jacketFlowRate] in *.
  subst. reflexivity.
Qed.

(** **** X1
    Two calls of [updateParameters] in a row: a parameter ends with the
    value of the second record if that one has it, else of the first if
    that one has it, else with the value it had; the state is untouched.
    In particular the second call wins where both set a property. *)
Theorem updateParameters_twice (a b : PartialCSTRParameters num)
    (this : Sim) :
  let this' :=
    execState (updateParameters b) (execState (updateParameters a) this) in
  (forall k : ParameterName,
     property k this'.(params)
     = match own_property k b, own_property k a with
       | Some v, _ => v
       | None, Some v => v
       | None, None => property k this.(params)
       end)
  /\ this'.(state) = this.(state)
  /\ this'.(dt) = this.(dt).
Proof.
  intros this'. subst this'. rewrite !execState_updateParameters.
  cbn [params state dt]. split; [|split; reflexivity].
  intros k. rewrite !spread_params_property.
  destruct (own_property k b); reflexivity.
Qed.

Lemma own_property_single (key k : ParameterName) (value : num) :
  own_property k (single_property key value) = only key value k.
Proof. destruct k; reflexivity. Qed.

Lemma own_property_as_partial (k : ParameterName) (p : CSTRParameters num) :
  own_property k (as_partial p) = Some (property k p).
Proof. destruct k; reflexivity. Qed.

Lemma spread_params_as_partial (p q : CSTRParameters num) :
  spread_params p (as_partial q) = q.
Proof.
  apply parameters_ext. intros k.
  rewrite spread_params_property, own_property_as_partial. reflexivity.
Qed.

(** **** X2
    [updateParameters] called with a complete parameter record, as the
    [App] component does, replaces the whole parameter set: whatever the
    simulator held before, it then holds exactly that record, and its
    state is untouched. Calling it again with the same record changes
    nothing. *)
Theorem updateParameters_complete_record (q : CSTRParameters num)
    (this : Sim) :
  let this' := execState (updateParameters (as_partial q)) this in
  this'.(params) = q
  /\ this'.(state) = this.(state)
  /\ execState (updateParameters (as_partial q)) this' = this'.
Proof.
  intros this'. subst this'. rewrite !execState_updateParameters.
  cbn [params state dt]. rewrite !spread_params_as_partial.
  repeat split.
Qed.

(** **** X3
    A change of one control ([handleParameterChange key value]) followed by
    the synchronising effect leaves the simulator, when there is one, with
    the parameters of the controls in which exactly [key] has the new
    value, and with the state it had; without a simulator nothing is
    created. *)
Theorem parameter_change_reaches_simulator (key : ParameterName)
    (value : num) (cstrParams : CSTRParameters num)
    (simulatorRef : option Sim) :
  let cstrParams' := handleParameterChange key value cstrParams in
  (forall k : ParameterName,
     property k cstrParams'
     = if ParameterName_eq_dec key k then value else property k cstrParams)
  /\ match simulatorRef, syncParameters cstrParams' simulatorRef with
     | Some simulator, Some simulator' =>
         simulator'.(params) = cstrParams'
         /\ simulator'.(state) = simulator.(state)
         /\ simulator'.(dt) = simulator.(dt)
     | None, None => True
     | _, _ => False
     end.
Proof.
  intros cstrParams'. split.
  - intros k. subst cstrParams'. unfold handleParameterChange.
    rewrite spread_params_property, own_property_single. unfold only.
    destruct (ParameterName_eq_dec key k); reflexivity.
  - destruct simulatorRef as [simulator|]; [|exact I].
    cbn [syncParameters]. rewrite execState_updateParameters.
    cbn [params state dt]. rewrite spread_params_as_partial.
    repeat split.
Qed.

End UpdateFacts.

(** ** The history buffers *)

Section HistoryFacts.
Context {num : Type} {N : Number num} {ML : MathLib num}.

Lemma slice_from_end (A : Type) (l : list A) (n : nat) :
  (0 < n)%nat -> slice l (- Z.of_nat n) = skipn (length l - n) l.
Proof.
  intros Hn. unfold slice.
  destruct (Z.ltb_spec (- Z.of_nat n) 0) as [_|Hge]; [|lia].
  f_equal. lia.
Qed.

Lemma window_skipn (A : Type) (l : list A) :
  slice l (- maxPoints + 1) = skipn (length l - 49) l.
Proof.
  change (- maxPoints + 1)%Z with (- Z.of_nat 49)%Z.
  apply slice_from_end. lia.
Qed.

Lemma window_push_length (A : Type) (l : list A) (x : A) :
  length (slice l (- maxPoints + 1) ++ [x]) = (Nat.min (length l) 49 + 1)%nat.
Proof.
  rewrite window_skipn, length_app, length_skipn. cbn [length]. lia.
Qed.

Lemma window_push_suffix (A : Type) (l : list A) (x : A) :
  l ++ [x]
  = firstn (length l - 49) l ++ (slice l (- maxPoints + 1) ++ [x]).
Proof.
  rewrite window_skipn, app_assoc, firstn_skipn. reflexivity.
Qed.

Lemma window_slides (old : list num) (x : num) :
  slides old x (slice old (- maxPoints + 1) ++ [x]).
Proof.
  unfold slides. split; [rewrite window_skipn; reflexivity|].
  split; [apply window_push_length|].
  split.
  - rewrite window_push_length. lia.
  - split; [apply last_last | apply window_push_suffix].
Qed.

(** **** X4
    One history update keeps, in each of the eight series, the last 49
    points it had, in order, and appends the new one: the state [step]
    returned for the five state series, the simulator's conversion,
    reaction rate and outlet flow for the other three.  Whatever its
    length before, a series has at most 50 points afterwards, its last
    point is the new value, and only points at its front are dropped. *)
Theorem historyUpdater_slides (newState : CSTRState num)
    (simulator : CSTRSimulator num) (prev : ParameterHistory num) :
  let next := historyUpdater newState simulator prev in
  slides prev.(history_volume) newState.(volume) next.(history_volume)
  /\ slides prev.(history_concentration) newState.(concentration)
       next.(history_concentration)
  /\ slides prev.(history_temperature) newState.(temperature)
       next.(history_temperature)
  /\ slides prev.(history_jacketTemp) newState.(jacketTemp)
       next.(history_jacketTemp)
  /\ slides prev.(history_time) newState.(time) next.(history_time)
  /\ slides prev.(history_conversion) (getConversion simulator)
       next.(history_conversion)
  /\ slides prev.(history_reactionRate) (getReactionRate simulator)
       next.(history_reactionRate)
  /\ slides prev.(history_outletFlow) (getOutletFlow simulator)
       next.(history_outletFlow).
Proof.
  cbv zeta. unfold historyUpdater.
  cbn [history_volume history_concentration history_temperature
       history_jacketTemp history_time history_conversion
       history_reactionRate history_outletFlow].
  repeat split; apply window_slides.
Qed.

Lemma historyUpdater_lengths (newState : CSTRState num)
    (simulator : CSTRSimulator num) (prev : ParameterHistory num) (m : nat) :
  Forall (fun s => length s = m) (series prev) ->
  Forall (fun s => length s = (Nat.min m 49 + 1)%nat)
    (series (historyUpdater newState simulator prev)).
Proof.
  unfold series. intros H.
  repeat match goal with
         | H : Forall _ (_ :: _) |- _ => inversion_clear H
         end.
  unfold historyUpdater.
  cbn [history_volume history_concentration history_temperature
       history_jacketTemp history_time history_conversion
       history_reactionRate history_outletFlow].
  repeat constructor; rewrite window_push_length; congruence.
Qed.

Lemma applyUpdaters_lengths
    (us : list (CSTRState num * CSTRSimulator num))
    (h : ParameterHistory num) (m : nat) :
  (m <= 50)%nat ->
  Forall (fun s => length s = m) (series h) ->
  Forall (fun s => length s = Nat.min (length us + m) 50)
    (series (applyUpdaters us h)).
Proof.
  revert h m. induction us as [|[newState simulator] us IH]; intros h m Hm H.
  - cbn [applyUpdaters length Nat.add]. rewrite Nat.min_l by exact Hm.
    exact H.
  - cbn [applyUpdaters length].
    pose proof (historyUpdater_lengths newState simulator H) as H1.
    apply IH in H1; [|lia].
    replace (Nat.min (S (length us) + m) 50)
      with (Nat.min (length us + (Nat.min m 49 + 1)) 50) by lia.
    exact H1.
Qed.

(** **** X5
    Starting from the initial history (one point per series), after the
    updaters of [n] steps have run every one of the eight series has
    [min (n + 1) 50] points: the charts always have equally many points,
    and never more than 50. *)
Theorem history_after_updates
    (us : list (CSTRState num * CSTRSimulator num)) :
  Forall (fun s => length s = Nat.min (length us + 1) 50)
    (series (applyUpdaters us initialHistory)).
Proof.
  apply applyUpdaters_lengths; [lia | repeat constructor].
Qed.

End HistoryFacts.

(** ** The balances in exact arithmetic *)

Section BalanceFacts.
Context {ML : MathLib R}.
Local Open Scope R_scope.

Local Abbreviation SimR := (CSTRSimulator R).

(** **** X6
    The heat [getHeatRemovalRate] reports (in kW, hence the factor 1000)
    is the term that leaves the reactor's energy balance and enters the
    jacket's: what the reactor loses through the wall the jacket gains, so
    the wall term cancels in the sum of the two balances. *)
Theorem heat_removal_links_balances (this : SimR) :
  let p := this.(params) in
  let s := this.(state) in
  let rhoCp := p.(density) * p.(heatCapacity) in
  let rhoJCJ := p.(jacketDensity) * p.(jacketHeatCapacity) in
  let F := getOutletFlow this in
  let r := getReactionRate this in
  let Q := 1000 * getHeatRemovalRate this in
  rhoCp * s.(volume) <> 0 ->
  rhoJCJ * p.(jacketVolume) <> 0 ->
  rhoCp * s.(volume) * temperatureDerivative this
  = rhoCp * (p.(inletFlowRate) * p.(feedTemperature) - F * s.(temperature))
    - p.(heatOfReaction) * s.(volume) * r - Q
  /\ rhoJCJ * p.(jacketVolume) * jacketTempDerivative this
     = p.(jacketFlowRate) * rhoJCJ * (p.(jacketInletTemp) - s.(jacketTemp))
       + Q
  /\ rhoCp * s.(volume) * temperatureDerivative this
     + rhoJCJ * p.(jacketVolume) * jacketTempDerivative this
     = rhoCp * (p.(inletFlowRate) * p.(feedTemperature) - F * s.(temperature))
       - p.(heatOfReaction) * s.(volume) * r
       + p.(jacketFlowRate) * rhoJCJ * (p.(jacketInletTemp) - s.(jacketTemp)).
Proof.
  intros p s rhoCp rhoJCJ F r Q H1 H2.
  assert (E1 : rhoCp * s.(volume) * temperatureDerivative this
    = rhoCp * (p.(inletFlowRate) * p.(feedTemperature) - F * s.(temperature))
      - p.(heatOfReaction) * s.(volume) * r - Q).
  { subst Q r F. unfold temperatureDerivative, getHeatRemovalRate,
      getReactionRate, getOutletFlow. cbv zeta.
    set (F := getOutletFlowRate this). set (r := getReactionRateValue this).
    fold p s. exact_arith. fold rhoCp. field.
    split; intros E; apply H1; rewrite E; ring. }
  assert (E2 : rhoJCJ * p.(jacketVolume) * jacketTempDerivative this
    = p.(jacketFlowRate) * rhoJCJ * (p.(jacketInletTemp) - s.(jacketTemp))
      + Q).
  { subst Q. unfold jacketTempDerivative, getHeatRemovalRate. cbv zeta.
    fold p s. exact_arith. fold rhoJCJ. field.
    split; intros E; apply H2; rewrite E; ring. }
  split; [exact E1|]. split; [exact E2|].
  rewrite E1, E2. ring.
Qed.

End BalanceFacts.

(** ** Relaxation of the volume and of the concentration *)

Section RelaxationFacts.
Context {ML : MathLib R}.
Local Open Scope R_scope.

Local Abbreviation SimR := (CSTRSimulator R).

Lemma volume_rk4_closed_form (h F0 KV Vmin V : R) :
  KV <> 0 ->
  volume_rk4 h F0 KV Vmin V
  = (Vmin + F0 / KV) + rk4_factor (h * KV) * (V - (Vmin + F0 / KV)).
Proof.
  intros HKV. unfold volume_rk4, rk4_factor. cbv beta zeta. exact_arith.
  field. exact HKV.
Qed.

Lemma rk4_factor_bounds (z : R) : 0 < z <= 1 -> 0 < rk4_factor z < 1.
Proof.
  intros [Hz H1]. unfold rk4_factor.
  assert (0 < z * z) by (apply Rmult_lt_0_compat; assumption).
  assert (z * z <= z) by nra.
  assert (0 < z * z * z) by (apply Rmult_lt_0_compat; assumption).
  assert (z * z * z <= z * z) by nra.
  assert (0 < z * z * z * z) by (apply Rmult_lt_0_compat; assumption).
  assert (z * z * z * z <= z * z * z) by nra.
  split; lra.
Qed.

Lemma pow_unit_interval (q : R) (n : nat) : 0 < q < 1 -> 0 < q ^ n <= 1.
Proof.
  intros [H0 H1]. split; [apply pow_lt; exact H0|].
  rewrite <- (pow1 n). apply pow_incr. lra.
Qed.

(** **** X7
    With a valve constant [KV <> 0] the volume equation has the rest point
    [V_rest = Vmin + F0/KV], and every [step] multiplies the distance of
    the volume to it by the same factor, the RK4 polynomial
    [1 - z + z²/2 - z³/6 + z⁴/24] at [z = dt·KV]: after [n] steps the
    volume is [V_rest + factor^n · (V - V_rest)], whatever the other state
    variables and parameters do. *)
Theorem steps_volume_closed_form (this : SimR) (n : nat) :
  let KV := this.(params).(valveConstant) in
  let V_rest :=
    this.(params).(minimumVolume) + this.(params).(inletFlowRate) / KV in
  KV <> 0 ->
  (steps n this).(state).(volume)
  = V_rest + rk4_factor (this.(dt) * KV) ^ n
             * (this.(state).(volume) - V_rest).
Proof.
  intros KV V_rest HKV. induction n as [|n IH].
  - cbn [steps pow]. ring.
  - cbn [steps]. rewrite step_volume, steps_params.
    rewrite (proj2 (steps_time_dt n this)), IH.
    rewrite volume_rk4_closed_form by exact HKV.
    fold KV V_rest. cbn [pow]. ring.
Qed.

Lemma steps_outlet_flow (this : SimR) (n : nat) :
  getOutletFlow (steps n this)
  = this.(params).(valveConstant)
    * ((steps n this).(state).(volume) - this.(params).(minimumVolume)).
Proof.
  unfold getOutletFlow. rewrite getOutletFlowRate_exact, steps_params.
  reflexivity.
Qed.

(** **** X8
    For a simulator as the constructor builds it ([dt = 0.1]), with
    [0 < KV <= 10] and a feed [F0 >= 0]: the volume moves towards its rest
    point [Vmin + F0/KV] without ever passing it, so it stays between its
    initial value and the rest point; if it starts at or above the minimum
    volume it never falls below it, and the outlet flow never becomes
    negative. *)
Theorem volume_stays_between_start_and_rest (init : CSTRState R)
    (p : CSTRParameters R) (n : nat) :
  let V_rest := p.(minimumVolume) + p.(inletFlowRate) / p.(valveConstant) in
  let this_n := steps n (new init p) in
  0 < p.(valveConstant) <= 10 ->
  0 <= p.(inletFlowRate) ->
  (V_rest <= init.(volume) ->
   V_rest <= this_n.(state).(volume) <= init.(volume))
  /\ (init.(volume) <= V_rest ->
      init.(volume) <= this_n.(state).(volume) <= V_rest)
  /\ (p.(minimumVolume) <= init.(volume) ->
      p.(minimumVolume) <= this_n.(state).(volume)
      /\ 0 <= getOutletFlow this_n).
Proof.
  intros V_rest this_n [HKV HKV10] HF0.
  assert (HKVn : p.(valveConstant) <> 0) by lra.
  pose proof (steps_volume_closed_form (new init p) n HKVn) as E.
  cbn [new params state dt] in E. fold V_rest this_n in E.
  set (q := rk4_factor (lit 0.1 * p.(valveConstant)) ^ n) in E.
  assert (Hq : 0 < q <= 1).
  { apply pow_unit_interval. apply rk4_factor_bounds.
    exact_arith. lra. }
  assert (Hrest : p.(minimumVolume) <= V_rest).
  { subst V_rest.
    assert (0 <= p.(inletFlowRate) / p.(valveConstant)).
    { apply Rmult_le_pos; [exact HF0|].
      left. apply Rinv_0_lt_compat. exact HKV. }
    lra. }
  split; [|split].
  - intros H. rewrite E. nra.
  - intros H. rewrite E. nra.
  - intros H.
    assert (Hmin : p.(minimumVolume) <= this_n.(state).(volume))
      by (rewrite E; nra).
    split; [exact Hmin|].
    subst this_n. rewrite steps_outlet_flow. cbn [new params].
    apply Rmult_le_pos; lra.
Qed.

End RelaxationFacts.

Section DilutionFacts.
Context {ML : MathLib R}.
Local Open Scope R_scope.

Local Abbreviation SimR := (CSTRSimulator R).

Lemma dilution_rk4_closed_form (h F0 CA0 V CA : R) :
  V <> 0 ->
  dilution_rk4 h F0 CA0 V CA
  = CA0 + rk4_factor (h * F0 / V) * (CA - CA0).
Proof.
  intros HV. unfold dilution_rk4, rk4_factor. cbv beta zeta. exact_arith.
  field. exact HV.
Qed.

Lemma steps_volume_at_rest (this : SimR) (n : nat) :
  this.(params).(inletFlowRate)
  - this.(params).(valveConstant)
    * (this.(state).(volume) - this.(params).(minimumVolume)) = 0 ->
  (steps n this).(state).(volume) = this.(state).(volume).
Proof.
  intros H0. induction n as [|n IH]; [reflexivity|].
  cbn [steps]. rewrite step_volume, steps_params, IH.
  apply volume_rk4_at_rest. exact H0.
Qed.

(** **** X9
    Without reaction ([α = 0]) and with the outlet flow equal to the inlet
    flow, the reactor is flushed by its feed: every [step] multiplies the
    distance of the concentration to the feed concentration [CA0] by the
    RK4 polynomial at [z = dt·F0/V], so after [n] steps the concentration
    is [CA0 + factor^n · (CA - CA0)]. *)
Theorem steps_concentration_no_reaction (this : SimR) (n : nat) :
  let p := this.(params) in
  let V := this.(state).(volume) in
  p.(preExponentialFactor) = 0 ->
  p.(inletFlowRate) - p.(valveConstant) * (V - p.(minimumVolume)) = 0 ->
  V <> 0 ->
  (steps n this).(state).(concentration)
  = p.(feedConcentration)
    + rk4_factor (this.(dt) * p.(inletFlowRate) / V) ^ n
      * (this.(state).(concentration) - p.(feedConcentration)).
Proof.
  intros p V Ha H0 HV. induction n as [|n IH].
  - cbn [steps pow]. ring.
  - cbn [steps]. rewrite step_concentration_no_reaction.
    + rewrite steps_params, (proj2 (steps_time_dt n this)).
      rewrite (steps_volume_at_rest this n H0), IH.
      fold p V. rewrite dilution_rk4_closed_form by exact HV.
      cbn [pow]. ring.
    + rewrite steps_params. exact Ha.
    + rewrite steps_params, (steps_volume_at_rest this n H0). exact H0.
Qed.

End DilutionFacts.

(** ** Time and diagnostics in exact arithmetic *)

Section DiagnosticFacts.
Context {ML : MathLib R}.
Local Open Scope R_scope.

Local Abbreviation SimR := (CSTRSimulator R).

Lemma add_repeatedly_exact (n : nat) (h t : R) :
  add_repeatedly n h t = t + INR n * h.
Proof.
  induction n as [|n IH].
  - cbn [add_repeatedly INR]. ring.
  - cbn [add_repeatedly]. rewrite IH, S_INR.
    cbn [num_add Exact]. ring.
Qed.

(** **** X10
    In exact arithmetic, after any sequence of public calls on a freshly
    constructed simulator the time is the initial time plus one tenth of a
    second per call of [step]; a further [step] strictly increases it. *)
Theorem time_exact (init : CSTRState R) (p : CSTRParameters R)
    (cs : list (Call R)) :
  let this := execState (perform_all cs) (new init p) in
  this.(state).(time) = init.(time) + INR (count_steps cs) / 10
  /\ this.(state).(time) < (execState step this).(state).(time).
Proof.
  intros this. subst this.
  destruct (perform_all_time_dt cs (new init p)) as [Ht Hd].
  assert (E : lit 0.1 = 1 / 10) by (exact_arith; lra).
  split.
  - rewrite Ht. cbn [new dt state]. rewrite add_repeatedly_exact, E. lra.
  - rewrite execState_step. cbn [state spec_step time dt].
    rewrite Hd. cbn [new dt]. rewrite E. cbn [num_add Exact]. lra.
Qed.

(** **** X11
    [getConversion] is not clamped to [[0, 100]]: with a feed
    concentration [CA0 > 0] it is negative exactly when the reactor is
    more concentrated than the feed, above 100 exactly when the
    concentration is negative, and 100 exactly when the concentration is
    zero. *)
Theorem getConversion_unclamped (this : SimR) :
  let CA0 := this.(params).(feedConcentration) in
  let CA := this.(state).(concentration) in
  0 < CA0 ->
  (getConversion this < 0 <-> CA0 < CA)
  /\ (100 < getConversion this <-> CA < 0)
  /\ (getConversion this = 100 <-> CA = 0).
Proof.
  intros CA0 CA Hpos.
  rewrite getConversion_nonzero_feed by (fold CA0; lra). fold CA0 CA.
  assert (E : (CA0 - CA) / CA0 * 100 = 100 - 100 * (CA / CA0))
    by (field; lra).
  rewrite E.
  assert (Hinv : 0 < / CA0) by (apply Rinv_0_lt_compat; exact Hpos).
  assert (Hq : CA / CA0 * CA0 = CA) by (field; lra).
  split; [|split]; split; intros H; nra.
Qed.

(** **** X12
    The guard of [getResidenceTime] keeps it from dividing by a zero or
    negative flow: for a volume [V >= 0] the residence time is never
    negative. *)
Theorem getResidenceTime_nonnegative (this : SimR) :
  0 <= this.(state).(volume) -> 0 <= getResidenceTime this.
Proof.
  intros HV.
  destruct (getResidenceTime_exact this) as [Hpos Hnot].
  cbv zeta in Hpos, Hnot.
  destruct (Rlt_le_dec 0 (this.(params).(valveConstant)
              * (this.(state).(volume) - this.(params).(minimumVolume))))
    as [HF|HF].
  - rewrite (Hpos HF). apply Rmult_le_pos; [exact HV|].
    left. apply Rinv_0_lt_compat. exact HF.
  - rewrite (Hnot HF). lra.
Qed.

End DiagnosticFacts.

(** ** The safety status and the mini graphs *)

Section DisplayFacts.
Local Open Scope R_scope.

Lemma num_lt_true (a b : R) : num_lt a b = true <-> a < b.
Proof. unfold num_lt. apply num_gt_true. Qed.

Lemma num_gt_false (a b : R) : num_gt a b = false <-> a <= b.
Proof.
  rewrite <- Bool.not_true_iff_false, num_gt_true. split; lra.
Qed.

Lemma num_lt_false (a b : R) : num_lt a b = false <-> b <= a.
Proof. unfold num_lt. apply num_gt_false. Qed.

(** **** X13
    [getSafetyStatus] partitions the temperature axis at 280 K and 400 K:
    danger above 400, warning below 280, normal in between, both bounds
    included.  The concentration warns above 2.0, the volume below 0.2,
    and the conversion warns exactly when there is a simulator whose
    conversion is below 30. *)
Theorem getSafetyStatus_thresholds (currentState : CSTRState R)
    (simulatorRef : option (CSTRSimulator R)) :
  let status := getSafetyStatus currentState simulatorRef in
  let T := currentState.(temperature) in
  (status.(status_temperature) = danger <-> 400 < T)
  /\ (status.(status_temperature) = warning <-> T < 280)
  /\ (status.(status_temperature) = normal <-> 280 <= T <= 400)
  /\ (status.(status_concentration) = warning
      <-> 2 < currentState.(concentration))
  /\ (status.(status_concentration) = normal
      <-> currentState.(concentration) <= 2)
  /\ (status.(status_volume) = warning <-> currentState.(volume) < 0.2)
  /\ (status.(status_volume) = normal <-> 0.2 <= currentState.(volume))
  /\ (status.(status_conversion) = warning
      <-> exists simulator, simulatorRef = Some simulator
                            /\ getConversion simulator < 30).
Proof.
  intros status T. subst status. unfold getSafetyStatus. cbv zeta.
  cbn [status_temperature status_concentration status_volume
       status_conversion].
  fold T.
  assert (L400 : lit 400 = 400) by (exact_arith; lra).
  assert (L280 : lit 280 = 280) by (exact_arith; lra).
  assert (L2 : lit 2.0 = 2) by (exact_arith; lra).
  assert (L02 : lit 0.2 = 0.2) by (exact_arith; lra).
  assert (L30 : lit 30 = 30) by (exact_arith; lra).
  rewrite L400, L280, L2, L02, L30.
  repeat split.
  - destruct (num_gt T 400) eqn:E1; [intros _; apply num_gt_true; exact E1|].
    destruct (num_lt T 280); discriminate.
  - intros H. apply num_gt_true in H. rewrite H. reflexivity.
  - destruct (num_gt T 400) eqn:E1; [discriminate|].
    destruct (num_lt T 280) eqn:E2; [intros _; apply num_lt_true; exact E2|].
    discriminate.
  - intros H. pose proof H as H'. apply num_lt_true in H'.
    assert (E1 : num_gt T 400 = false) by (apply num_gt_false; lra).
    rewrite E1, H'. reflexivity.
  - destruct (num_gt T 400) eqn:E1; [discriminate|].
    destruct (num_lt T 280) eqn:E2; [discriminate|].
    apply num_lt_false in E2. exact E2.
  - destruct (num_gt T 400) eqn:E1; [discriminate|].
    apply num_gt_false in E1. exact E1.
  - intros [Hlo Hhi].
    assert (E1 : num_gt T 400 = false) by (apply num_gt_false; exact Hhi).
    assert (E2 : num_lt T 280 = false) by (apply num_lt_false; exact Hlo).
    rewrite E1, E2. reflexivity.
  - destruct (num_gt _ 2) eqn:E; [intros _; apply num_gt_true; exact E|].
    discriminate.
  - intros H. apply num_gt_true in H. rewrite H. reflexivity.
  - destruct (num_gt _ 2) eqn:E; [discriminate|].
    intros _. apply num_gt_false. exact E.
  - intros H. apply num_gt_false in H. rewrite H. reflexivity.
  - destruct (num_lt _ 0.2) eqn:E; [intros _; apply num_lt_true; exact E|].
    discriminate.
  - intros H. apply num_lt_true in H. rewrite H. reflexivity.
  - destruct (num_lt _ 0.2) eqn:E; [discriminate|].
    intros _. apply num_lt_false. exact E.
  - intros H. apply num_lt_false in H. rewrite H. reflexivity.
  - destruct simulatorRef as [simulator|]; [|discriminate].
    destruct (num_lt _ 30) eqn:E; [|discriminate].
    intros _. exists simulator. split; [reflexivity|].
    apply num_lt_true. exact E.
  - intros [simulator [-> H]]. apply num_lt_true in H. rewrite H.
    reflexivity.
Qed.

Lemma num_or_exact (a b : R) : num_or a b = if Req_dec_T a 0 then b else a.
Proof.
  unfold num_or.
  assert (Eaa : num_eq a a = true) by (apply num_eq_true; reflexivity).
  rewrite Eaa. cbn [negb]. rewrite Bool.orb_false_r.
  destruct (Req_dec_T a 0) as [E|E].
  - rewrite <- lit_0 in E. apply num_eq_true in E. rewrite E. reflexivity.
  - destruct (num_eq a (lit 0)) eqn:E0; [|reflexivity].
    apply num_eq_true in E0. rewrite lit_0 in E0. contradiction.
Qed.

Lemma lit_nat (n : nat) : lit (inject_Z (Z.of_nat n)) = INR n.
Proof.
  rewrite INR_IZR_INZ. exact_arith. unfold inject_Z. cbn [Qnum Qden]. lra.
Qed.

End DisplayFacts.

(** ** Not-a-number in binary64

    The program intercepts no numeric special value.  [Math.exp] and
    [Math.pow] are arbitrary here: the statements hold whatever they
    return. *)

Section NaNFacts.
Context {ML : MathLib float}.
Local Open Scope num_scope.

Local Abbreviation SimF := (CSTRSimulator float).

Lemma SFcompare_refl (s : spec_float) :
  s <> S754_nan -> SFcompare s s = Some Eq.
Proof.
  destruct s as [b|b| |b m e]; intros H; try (destruct b; reflexivity).
  - contradiction.
  - cbn [SFcompare]. rewrite Z.compare_refl, Pos.compare_cont_refl.
    destruct b; reflexivity.
Qed.

Lemma is_nan_spec (x : float) :
  PrimFloat.is_nan x = true <-> Prim2SF x = S754_nan.
Proof.
  unfold PrimFloat.is_nan. rewrite FloatAxioms.eqb_spec. unfold SFeqb.
  split.
  - intros H. destruct (Prim2SF x) eqn:E; try reflexivity;
      rewrite SFcompare_refl in H by discriminate; discriminate H.
  - intros ->. reflexivity.
Qed.

Lemma nan_add_l (x y : float) :
  PrimFloat.is_nan x = true -> PrimFloat.is_nan (x + y) = true.
Proof.
  rewrite !is_nan_spec. cbn [num_add Binary64].
  rewrite FloatAxioms.add_spec. intros ->. reflexivity.
Qed.

Lemma nan_add_r (x y : float) :
  PrimFloat.is_nan y = true -> PrimFloat.is_nan (x + y) = true.
Proof.
  rewrite !is_nan_spec. cbn [num_add Binary64].
  rewrite FloatAxioms.add_spec. intros ->.
  destruct (Prim2SF x); reflexivity.
Qed.

Lemma nan_sub_l (x y : float) :
  PrimFloat.is_nan x = true -> PrimFloat.is_nan (x - y) = true.
Proof.
  rewrite !is_nan_spec. cbn [num_sub Binary64].
  rewrite FloatAxioms.sub_spec. intros ->. reflexivity.
Qed.

Lemma nan_sub_r (x y : float) :
  PrimFloat.is_nan y = true -> PrimFloat.is_nan (x - y) = true.
Proof.
  rewrite !is_nan_spec. cbn [num_sub Binary64].
  rewrite FloatAxioms.sub_spec. intros ->.
  destruct (Prim2SF x); reflexivity.
Qed.

Lemma nan_mul_l (x y : float) :
  PrimFloat.is_nan x = true -> PrimFloat.is_nan (x * y) = true.
Proof.
  rewrite !is_nan_spec. cbn [num_mul Binary64].
  rewrite FloatAxioms.mul_spec. intros ->. reflexivity.
Qed.

Lemma nan_mul_r (x y : float) :
  PrimFloat.is_nan y = true -> PrimFloat.is_nan (x * y) = true.
Proof.
  rewrite !is_nan_spec. cbn [num_mul Binary64].
  rewrite FloatAxioms.mul_spec. intros ->.
  destruct (Prim2SF x); reflexivity.
Qed.

Lemma nan_div_l (x y : float) :
  PrimFloat.is_nan x = true -> PrimFloat.is_nan (x / y) = true.
Proof.
  rewrite !is_nan_spec. cbn [num_div Binary64].
  rewrite FloatAxioms.div_spec. intros ->. reflexivity.
Qed.

Lemma nan_div_r (x y : float) :
  PrimFloat.is_nan y = true -> PrimFloat.is_nan (x / y) = true.
Proof.
  rewrite !is_nan_spec. cbn [num_div Binary64].
  rewrite FloatAxioms.div_spec. intros ->.
  destruct (Prim2SF x); reflexivity.
Qed.

Lemma nan_not_gt_l (x y : float) :
  PrimFloat.is_nan x = true -> (x > y) = false.
Proof.
  rewrite is_nan_spec. cbn [num_gt Binary64].
  rewrite FloatAxioms.ltb_spec. intros ->. unfold SFltb.
  destruct (Prim2SF y); reflexivity.
Qed.

Lemma nan_not_gt_r (x y : float) :
  PrimFloat.is_nan y = true -> (x > y) = false.
Proof.
  rewrite is_nan_spec. cbn [num_gt Binary64].
  rewrite FloatAxioms.ltb_spec. intros ->. reflexivity.
Qed.

Ltac expose_rk4 :=
  rewrite execState_step; unfold spec_step, spec_rk4; cbv zeta;
  cbn [state volume concentration temperature jacketTemp time
       x_V x_CA x_T x_TJ vec_add].

Ltac first_stage :=
  apply nan_add_r; cbn [x_V x_CA x_T x_TJ vec_div vec_add vec_scale];
  apply nan_div_l; do 3 apply nan_add_l; apply nan_mul_r;
  cbn [x_V x_CA x_T x_TJ spec_f].

Lemma step_keeps_nan (this : SimF) :
  let s := this.(state) in
  let s' := (execState step this).(state) in
  (PrimFloat.is_nan s.(volume) = true ->
   PrimFloat.is_nan s'.(volume) = true)
  /\ (PrimFloat.is_nan s.(concentration) = true ->
      PrimFloat.is_nan s'.(concentration) = true)
  /\ (PrimFloat.is_nan s.(temperature) = true ->
      PrimFloat.is_nan s'.(temperature) = true)
  /\ (PrimFloat.is_nan s.(jacketTemp) = true ->
      PrimFloat.is_nan s'.(jacketTemp) = true)
  /\ (PrimFloat.is_nan s.(time) = true ->
      PrimFloat.is_nan s'.(time) = true).
Proof.
  cbv zeta. repeat split; intros H; expose_rk4; apply nan_add_l; exact H.
Qed.

Lemma step_spreads_nan (this : SimF) :
  let s := this.(state) in
  let s' := (execState step this).(state) in
  (PrimFloat.is_nan s.(volume) = true ->
   PrimFloat.is_nan s'.(concentration) = true
   /\ PrimFloat.is_nan s'.(temperature) = true)
  /\ (PrimFloat.is_nan s.(temperature) = true ->
      PrimFloat.is_nan s'.(jacketTemp) = true)
  /\ (PrimFloat.is_nan s.(jacketTemp) = true ->
      PrimFloat.is_nan s'.(temperature) = true).
Proof.
  cbv zeta. split; [|split]; intros H.
  - split.
    + expose_rk4. first_stage. unfold spec_dCA.
      apply nan_div_r. exact H.
    + expose_rk4. first_stage. unfold spec_dT. cbv zeta.
      apply nan_div_r. apply nan_mul_r. exact H.
  - expose_rk4. first_stage. unfold spec_dTJ. cbv zeta.
    apply nan_div_l. apply nan_add_r. apply nan_mul_r. apply nan_sub_l.
    exact H.
  - expose_rk4. first_stage. unfold spec_dT. cbv zeta.
    apply nan_div_l. apply nan_sub_r. apply nan_mul_r. apply nan_sub_r.
    exact H.
Qed.

(** **** X15
    [step] never repairs a not-a-number: a state variable (or the time)
    that is [NaN] is still [NaN] after any number of steps, whatever the
    parameters. *)
Theorem nan_persists (this : SimF) (n : nat) :
  let s := this.(state) in
  let s' := (steps n this).(state) in
  (PrimFloat.is_nan s.(volume) = true ->
   PrimFloat.is_nan s'.(volume) = true)
  /\ (PrimFloat.is_nan s.(concentration) = true ->
      PrimFloat.is_nan s'.(concentration) = true)
  /\ (PrimFloat.is_nan s.(temperature) = true ->
      PrimFloat.is_nan s'.(temperature) = true)
  /\ (PrimFloat.is_nan s.(jacketTemp) = true ->
      PrimFloat.is_nan s'.(jacketTemp) = true)
  /\ (PrimFloat.is_nan s.(time) = true ->
      PrimFloat.is_nan s'.(time) = true).
Proof.
  cbv zeta. induction n as [|n IH].
  - cbn [steps]. repeat split; intros H; exact H.
  - cbn [steps].
    destruct IH as [I1 [I2 [I3 [I4 I5]]]].
    destruct (step_keeps_nan (steps n this)) as [K1 [K2 [K3 [K4 K5]]]].
    cbv zeta in K1, K2, K3, K4, K5.
    repeat split; intros H; auto.
Qed.

(** **** X16
    A [NaN] volume poisons the state: after one step the concentration and
    the temperature are [NaN] as well, after two steps the jacket
    temperature too, and they stay so; no error is raised. *)
Theorem nan_volume_poisons_state (this : SimF) (n : nat) :
  PrimFloat.is_nan this.(state).(volume) = true ->
  let s' := (steps n this).(state) in
  PrimFloat.is_nan s'.(volume) = true
  /\ ((1 <= n)%nat ->
      PrimFloat.is_nan s'.(concentration) = true
      /\ PrimFloat.is_nan s'.(temperature) = true)
  /\ ((2 <= n)%nat -> PrimFloat.is_nan s'.(jacketTemp) = true).
Proof.
  intros H. cbv zeta.
  split; [destruct (nan_persists this n) as [P _]; exact (P H)|].
  split.
  - intros Hn. destruct n as [|n]; [lia|]. cbn [steps].
    destruct (step_spreads_nan (steps n this)) as [P _]. cbv zeta in P.
    apply P. destruct (nan_persists this n) as [R _]. exact (R H).
  - intros Hn. destruct n as [|[|n]]; [lia|lia|]. cbn [steps].
    destruct (step_spreads_nan (steps n this)) as [P _]. cbv zeta in P.
    destruct (step_spreads_nan (execState step (steps n this)))
      as [_ [Q _]]. cbv zeta in Q.
    apply Q. apply P. destruct (nan_persists this n) as [R _]. exact (R H).
Qed.

(** **** X17
    The safety status does not detect a poisoned state: a [NaN]
    temperature, concentration or volume is reported as [normal], and so
    is the conversion of a simulator whose concentration is [NaN] (for a
    feed concentration other than zero). *)
Theorem nan_state_reported_normal (currentState : CSTRState float)
    (simulatorRef : option SimF) :
  let status := getSafetyStatus currentState simulatorRef in
  (PrimFloat.is_nan currentState.(temperature) = true ->
   status.(status_temperature) = normal)
  /\ (PrimFloat.is_nan currentState.(concentration) = true ->
      status.(status_concentration) = normal)
  /\ (PrimFloat.is_nan currentState.(volume) = true ->
      status.(status_volume) = normal)
  /\ (forall simulator : SimF,
        simulatorRef = Some simulator ->
        PrimFloat.is_nan simulator.(state).(concentration) = true ->
        (simulator.(params).(feedConcentration) === #0) = false ->
        status.(status_conversion) = normal).
Proof.
  cbv zeta. unfold getSafetyStatus. cbv zeta.
  cbn [status_temperature status_concentration status_volume
       status_conversion].
  repeat split.
  - intros H. unfold num_lt.
    rewrite (@nan_not_gt_l _ _ H), (@nan_not_gt_r _ _ H). reflexivity.
  - intros H. rewrite (@nan_not_gt_l _ _ H). reflexivity.
  - intros H. unfold num_lt. rewrite (@nan_not_gt_r _ _ H). reflexivity.
  - intros simulator -> H Hfeed. unfold num_lt.
    rewrite nan_not_gt_r; [reflexivity|].
    unfold getConversion. rewrite Hfeed.
    apply nan_mul_l. apply nan_div_l. apply nan_sub_r. exact H.
Qed.

(** **** X18
    With a [NaN] volume the outlet flow is [NaN] and [getResidenceTime]
    returns 0: the test [outletFlow > 0] fails and the division is
    skipped. *)
Theorem nan_volume_diagnostics (this : SimF) :
  PrimFloat.is_nan this.(state).(volume) = true ->
  PrimFloat.is_nan (getOutletFlow this) = true
  /\ getResidenceTime this = #0.
Proof.
  intros H.
  assert (HF : PrimFloat.is_nan (getOutletFlowRate this) = true).
  { unfold getOutletFlowRate. apply nan_mul_r. apply nan_sub_l. exact H. }
  split; [exact HF|].
  unfold getResidenceTime. cbv zeta.
  rewrite (@nan_not_gt_l _ _ HF). reflexivity.
Qed.

End NaNFacts.

(** ** The hypotheses above are met *)

Section MoreConcrete.
Local Open Scope R_scope.

Local Abbreviation newR := (new (num := R)).
Local Abbreviation scenarioR := (new (num := R) scenario_state scenario_params).

Lemma heat_removal_links_balances_witness :
  1000 * 4.18 * 1 * temperatureDerivative (ML := real_MathLib) scenarioR
  + 1000 * 4.18 * 0.1 * jacketTempDerivative scenarioR
  = 1000 * 4.18 * (1 * 350 - getOutletFlow scenarioR * 350)
    - 1 * 1 * getReactionRate (ML := real_MathLib) scenarioR
    + 0.1 * (1000 * 4.18) * (300 - 300).
Proof.
  pose proof (heat_removal_links_balances (ML := real_MathLib) scenarioR)
    as H.
  cbv zeta in H. cbn [new params state scenario_params scenario_state
    density heatCapacity jacketDensity jacketHeatCapacity jacketVolume
    volume temperature jacketTemp inletFlowRate feedTemperature
    heatOfReaction jacketFlowRate jacketInletTemp] in H.
  assert (H1 : lit 1000 * lit 4.18 * lit 1.0 <> 0) by (exact_arith; lra).
  assert (H2 : lit 1000 * lit 4.18 * lit 0.1 <> 0) by (exact_arith; lra).
  destruct (H H1 H2) as [_ [_ E]].
  assert (L1000 : lit 1000 = 1000) by (exact_arith; lra).
  assert (L418 : lit 4.18 = 4.18) by (exact_arith; lra).
  assert (L1 : lit 1.0 = 1) by (exact_arith; lra).
  assert (L01 : lit 0.1 = 0.1) by (exact_arith; lra).
  assert (L350 : lit 350 = 350) by (exact_arith; lra).
  assert (L300 : lit 300 = 300) by (exact_arith; lra).
  rewrite L1000, L418, L1, L01, L350, L300 in E. exact E.
Defined.

Lemma steps_volume_closed_form_witness :
  (steps (ML := real_MathLib) 3 scenarioR).(state).(volume)
  = (0.1 + 1 / 0.1) + rk4_factor (0.1 * 0.1) ^ 3 * (1 - (0.1 + 1 / 0.1)).
Proof.
  pose proof (steps_volume_closed_form (ML := real_MathLib) scenarioR 3)
    as H.
  cbv zeta in H. cbn [new params state dt scenario_params scenario_state
    valveConstant minimumVolume inletFlowRate volume] in H.
  assert (H1 : lit 0.1 <> 0) by (exact_arith; lra).
  rewrite (H H1).
  assert (L1 : lit 1.0 = 1) by (exact_arith; lra).
  assert (L01 : lit 0.1 = 0.1) by (exact_arith; lra).
  rewrite L1, L01. reflexivity.
Defined.

Lemma volume_stays_between_start_and_rest_witness :
  1 <= (steps (ML := real_MathLib) 50 scenarioR).(state).(volume)
    <= 0.1 + 1 / 0.1
  /\ 0 <= getOutletFlow (steps (ML := real_MathLib) 50 scenarioR).
Proof.
  pose proof (volume_stays_between_start_and_rest (ML := real_MathLib)
                scenario_state scenario_params 50) as H.
  cbv zeta in H. cbn [scenario_params scenario_state
    valveConstant minimumVolume inletFlowRate volume] in H.
  assert (L1 : lit 1.0 = 1) by (exact_arith; lra).
  assert (L01 : lit 0.1 = 0.1) by (exact_arith; lra).
  rewrite L1, L01 in H.
  assert (H1 : 0 < 0.1 <= 10) by lra.
  assert (H2 : 0 <= 1) by lra.
  destruct (H H1 H2) as [_ [Hup Hmin]].
  split; [apply Hup | apply Hmin]; lra.
Defined.

Lemma steps_concentration_no_reaction_witness :
  (steps (ML := real_MathLib) 3
     (newR diluted_state no_reaction_params)).(state).(concentration)
  = 0.5 + rk4_factor (0.1 * 0.1 / 0.3) ^ 3 * (0.25 - 0.5).
Proof.
  pose proof (steps_concentration_no_reaction (ML := real_MathLib)
                (newR diluted_state no_reaction_params) 3) as H.
  cbv zeta in H. cbn [new params state dt no_reaction_params diluted_state
    preExponentialFactor valveConstant minimumVolume inletFlowRate
    feedConcentration volume concentration] in H.
  assert (H1 : lit 0 = 0) by (exact_arith; lra).
  assert (H2 : lit 0.1 - lit 0.5 * (lit 0.3 - lit 0.1) = 0)
    by (exact_arith; lra).
  assert (H3 : lit 0.3 <> 0) by (exact_arith; lra).
  rewrite (H H1 H2 H3).
  assert (L05 : lit 0.5 = 0.5) by (exact_arith; lra).
  assert (L01 : lit 0.1 = 0.1) by (exact_arith; lra).
  assert (L03 : lit 0.3 = 0.3) by (exact_arith; lra).
  assert (L025 : lit 0.25 = 0.25) by (exact_arith; lra).
  rewrite L05, L01, L03, L025. reflexivity.
Defined.

Lemma getConversion_unclamped_witness :
  getConversion (newR other_state scenario_params) = 50
  /\ ~ (getConversion (newR other_state scenario_params) < 0).
Proof.
  pose proof (getConversion_unclamped (newR other_state scenario_params))
    as H.
  cbv zeta in H. cbn [new params state scenario_params other_state
    feedConcentration concentration] in H.
  assert (H1 : 0 < lit 0.5) by (exact_arith; lra).
  destruct (H H1) as [Hneg _].
  split.
  - rewrite getConversion_nonzero_feed; cbn; exact_arith; lra.
  - intros Hc. apply Hneg in Hc. revert Hc. exact_arith. lra.
Defined.

Lemma getResidenceTime_nonnegative_witness :
  0 <= getResidenceTime scenarioR.
Proof.
  apply (getResidenceTime_nonnegative scenarioR).
  cbn. exact_arith. lra.
Defined.

Lemma nan_volume_poisons_state_witness :
  PrimFloat.is_nan
    (steps (ML := constant_MathLib) 2
       (new nan_volume_state scenario_params)).(state).(jacketTemp)
  = true.
Proof.
  pose proof (nan_volume_poisons_state (ML := constant_MathLib)
                (new nan_volume_state scenario_params) 2 eq_refl) as H.
  cbv zeta in H. destruct H as [_ [_ H]]. apply H. apply Nat.le_refl.
Defined.

Lemma nan_volume_diagnostics_witness :
  getResidenceTime (new nan_volume_state scenario_params) = lit 0.
Proof.
  exact (proj2 (nan_volume_diagnostics
                  (new nan_volume_state scenario_params) eq_refl)).
Defined.

End MoreConcrete.

(** * Binary64: rounding, order and signs

    The facts about the program's arithmetic that the claims about values
    need, proved from the kernel's specification of the primitive float
    operations: the order of two numbers is the order of their values, the
    rounding function keeps the sign it is given and is monotone below a
    representable bound, and a subtraction never underflows to zero. *)

Unset Implicit Arguments.

Section Binary64Rounding.
Local Open Scope R_scope.

(** *** Powers of two and digits *)

Lemma bpow_pos e : 0 < bpow e.
Proof. apply powerRZ_lt. lra. Qed.

Lemma bpow_add a b : bpow (a + b) = bpow a * bpow b.
Proof. apply powerRZ_add. lra. Qed.

Lemma bpow_IZR n : (0 <= n)%Z -> bpow n = IZR (2 ^ n).
Proof.
  intros H. unfold bpow. destruct n as [|p|p]; try lia.
  - reflexivity.
  - rewrite <- Zpower_pos_powerRZ. reflexivity.
Qed.

Lemma bpow_ge_1 n : (0 <= n)%Z -> 1 <= bpow n.
Proof.
  intros H. rewrite bpow_IZR by exact H. apply IZR_le.
  pose proof (Z.pow_pos_nonneg 2 n). lia.
Qed.

Lemma bpow_le a b : (a <= b)%Z -> bpow a <= bpow b.
Proof.
  intros H. replace b with (a + (b - a))%Z by lia. rewrite bpow_add.
  pose proof (bpow_ge_1 (b - a)). pose proof (bpow_pos a).
  assert (1 <= bpow (b - a)) by (apply H0; lia). nra.
Qed.

Lemma bpow_lt a b : (a < b)%Z -> bpow a < bpow b.
Proof.
  intros H. replace b with (a + 1 + (b - a - 1))%Z by lia.
  rewrite !bpow_add.
  assert (1 <= bpow (b - a - 1)) by (apply bpow_ge_1; lia).
  pose proof (bpow_pos a).
  assert (E : bpow 1 = 2) by (apply (powerRZ_1 2)).
  rewrite E. nra.
Qed.


Lemma digits2_bounds (m : positive) :
  (2 ^ (Zpos (digits2_pos m) - 1) <= Zpos m < 2 ^ Zpos (digits2_pos m))%Z.
Proof.
  induction m as [m IH|m IH|]; cbn [digits2_pos].
  - rewrite Pos2Z.inj_succ.
    replace (Z.succ (Zpos (digits2_pos m)) - 1)%Z
      with (Z.succ (Zpos (digits2_pos m) - 1))%Z by lia.
    rewrite !Z.pow_succ_r by lia. lia.
  - rewrite Pos2Z.inj_succ.
    replace (Z.succ (Zpos (digits2_pos m)) - 1)%Z
      with (Z.succ (Zpos (digits2_pos m) - 1))%Z by lia.
    rewrite !Z.pow_succ_r by lia. lia.
  - cbn. lia.
Qed.

Lemma digits2_bpow (m : positive) :
  bpow (Zpos (digits2_pos m) - 1) <= IZR (Zpos m) < bpow (Zpos (digits2_pos m)).
Proof.
  destruct (digits2_bounds m) as [L U].
  rewrite !bpow_IZR by lia. split; [apply IZR_le; exact L|apply IZR_lt; exact U].
Qed.

Lemma fexp64_eq e : fexp64 e = Z.max (e - 53) (-1074).
Proof. reflexivity. Qed.


Lemma bounded_spec m e :
  bounded prec emax m e = true ->
  e = fexp64 (Zpos (digits2_pos m) + e) /\ (e <= 971)%Z.
Proof.
  unfold bounded, canonical_mantissa. intros H.
  apply andb_prop in H. destruct H as [H1 H2].
  apply Z.eqb_eq in H1. apply Z.leb_le in H2.
  split; [symmetry; exact H1 | exact H2].
Qed.

Lemma mag_pos m e : 0 < mag m e.
Proof.
  unfold mag. apply Rmult_lt_0_compat; [apply IZR_lt; lia | apply bpow_pos].
Qed.

Lemma mag_bounds m e :
  bpow (Zpos (digits2_pos m) - 1 + e) <= mag m e
  < bpow (Zpos (digits2_pos m) + e).
Proof.
  unfold mag. rewrite !bpow_add. pose proof (bpow_pos e).
  destruct (digits2_bpow m) as [L U]. split; nra.
Qed.

Lemma canonical_digits m e :
  bounded prec emax m e = true ->
  (Zpos (digits2_pos m) <= 53)%Z /\ (-1074 <= e)%Z /\ (e <= 971)%Z
  /\ ((-1074 < e)%Z -> Zpos (digits2_pos m) = 53%Z).
Proof.
  intros H. apply bounded_spec in H. destruct H as [H1 H2].
  rewrite fexp64_eq in H1. lia.
Qed.

Lemma mag_lt_by_exponent m1 e1 m2 e2 :
  bounded prec emax m1 e1 = true -> bounded prec emax m2 e2 = true ->
  (e1 < e2)%Z -> mag m1 e1 < mag m2 e2.
Proof.
  intros B1 B2 H.
  apply canonical_digits in B1. apply canonical_digits in B2.
  destruct B1 as [D1 [L1 _]]. destruct B2 as [_ [_ [_ N2]]].
  assert (E2 : Zpos (digits2_pos m2) = 53%Z) by (apply N2; lia).
  destruct (mag_bounds m1 e1) as [_ U1].
  destruct (mag_bounds m2 e2) as [L2 _].
  rewrite E2 in L2.
  apply Rlt_le_trans with (1 := U1).
  apply Rle_trans with (2 := L2). apply bpow_le. lia.
Qed.

Lemma mag_compare_same_exponent m1 m2 e :
  match Pos.compare_cont Eq m1 m2 with
  | Lt => mag m1 e < mag m2 e
  | Eq => mag m1 e = mag m2 e
  | Gt => mag m2 e < mag m1 e
  end.
Proof.
  change (Pos.compare_cont Eq m1 m2) with (Pos.compare m1 m2).
  unfold mag. pose proof (bpow_pos e).
  destruct (Pos.compare_spec m1 m2) as [E|L|G].
  - subst. reflexivity.
  - apply Rmult_lt_compat_r; [assumption|]. apply IZR_lt. lia.
  - apply Rmult_lt_compat_r; [assumption|]. apply IZR_lt. lia.
Qed.

Lemma sf_val_finite sg m e :
  sf_val (S754_finite sg m e) = if sg then - mag m e else mag m e.
Proof. unfold sf_val, mag. destruct sg; ring. Qed.

(** The comparison of two valid numbers, finite or zero, is the order of
    their values. *)
Lemma compare_val (x y : spec_float) :
  valid_binary x = true -> valid_binary y = true ->
  sf_finite x -> sf_finite y ->
  match SFcompare x y with
  | Some Lt => sf_val x < sf_val y
  | Some Eq => sf_val x = sf_val y
  | Some Gt => sf_val y < sf_val x
  | None => False
  end.
Proof.
  intros Vx Vy Fx Fy.
  destruct x as [sx|sx| |sx mx ex]; try contradiction;
  destruct y as [sy|sy| |sy my ey]; try contradiction.
  - reflexivity.
  - cbn [SFcompare]. rewrite sf_val_finite. cbn [sf_val].
    pose proof (mag_pos my ey). destruct sy; lra.
  - cbn [SFcompare]. rewrite sf_val_finite. cbn [sf_val].
    pose proof (mag_pos mx ex). destruct sx; lra.
  - cbn [valid_binary] in Vx, Vy. cbn [SFcompare].
    rewrite !sf_val_finite.
    pose proof (mag_pos mx ex). pose proof (mag_pos my ey).
    destruct sx, sy; try lra.
    + destruct (Z.compare_spec ex ey) as [E|L|G].
      * subst ey. pose proof (mag_compare_same_exponent mx my ex) as C.
        destruct (Pos.compare_cont Eq mx my); cbn [CompOpp]; lra.
      * pose proof (mag_lt_by_exponent mx ex my ey Vx Vy L). lra.
      * pose proof (mag_lt_by_exponent my ey mx ex Vy Vx G). lra.
    + destruct (Z.compare_spec ex ey) as [E|L|G].
      * subst ey. pose proof (mag_compare_same_exponent mx my ex) as C.
        destruct (Pos.compare_cont Eq mx my); lra.
      * pose proof (mag_lt_by_exponent mx ex my ey Vx Vy L). lra.
      * pose proof (mag_lt_by_exponent my ey mx ex Vy Vx G). lra.
Qed.

(** *** The right shift of the rounding function *)

Lemma shifted_refl x : (0 <= shr_m x)%Z -> shifted 0 x x.
Proof.
  intros H. unfold shifted. rewrite Z.pow_0_r, Z.mul_1_r.
  split; [exact H|]. split; [lia|]. intros E. right. exact E.
Qed.

Lemma shifted_1 x : (0 <= shr_m x)%Z -> shifted 1 x (shr_1 x).
Proof.
  destruct x as [m r s]. cbn [shr_m]. intros H.
  unfold shifted, shr_inexact, shr_1. change (2 ^ 1)%Z with 2%Z.
  destruct m as [|[p|p|]|p]; cbn [shr_m shr_r shr_s]; [| | | |lia].
  - split; [lia|]. split; [lia|]. cbn [orb]. intros E. right. exact E.
  - split; [lia|]. split; [lia|]. intros _. left. lia.
  - split; [lia|]. split; [lia|]. cbn [orb]. intros E. right. exact E.
  - split; [lia|]. split; [lia|]. intros _. left. lia.
Qed.

Lemma shifted_trans j k x y z :
  (0 <= j)%Z -> (0 <= k)%Z ->
  shifted j x y -> shifted k y z -> shifted (j + k) x z.
Proof.
  intros Hj Hk [Y0 [Y1 Y2]] [Z0 [Z1 Z2]]. unfold shifted.
  rewrite Z.pow_add_r by assumption.
  pose proof (Z.pow_pos_nonneg 2 j ltac:(lia) Hj) as Pj.
  pose proof (Z.pow_pos_nonneg 2 k ltac:(lia) Hk) as Pk.
  split; [exact Z0|]. split; [nia|].
  intros E. destruct (Z2 E) as [L|I].
  - left. nia.
  - destruct (Y2 I) as [L|I2]; [left; nia | right; exact I2].
Qed.

Lemma shifted_iter p x :
  (0 <= shr_m x)%Z -> shifted (Zpos p) x (iter_pos shr_1 p x).
Proof.
  revert x. induction p as [p IH|p IH|]; intros x H; cbn [iter_pos].
  - pose proof (shifted_1 x H) as S1.
    pose proof (IH _ (proj1 S1)) as S2.
    pose proof (IH _ (proj1 S2)) as S3.
    replace (Zpos p~1) with (1 + Zpos p + Zpos p)%Z by lia.
    apply shifted_trans with (y := iter_pos shr_1 p (shr_1 x)); try lia;
      [|exact S3].
    apply shifted_trans with (y := shr_1 x); try lia; assumption.
  - pose proof (IH _ H) as S2.
    pose proof (IH _ (proj1 S2)) as S3.
    replace (Zpos p~0) with (Zpos p + Zpos p)%Z by lia.
    apply shifted_trans with (y := iter_pos shr_1 p x); try lia; assumption.
  - apply shifted_1. exact H.
Qed.

Lemma shr_shifted mrs e n :
  (0 <= shr_m mrs)%Z ->
  shifted (Z.max n 0) mrs (fst (shr mrs e n))
  /\ snd (shr mrs e n) = (e + Z.max n 0)%Z.
Proof.
  intros H. unfold shr. destruct n as [|p|p]; cbn [fst snd].
  - split; [apply shifted_refl; exact H | lia].
  - split; [apply shifted_iter; exact H | lia].
  - split; [apply shifted_refl; exact H | lia].
Qed.

Lemma shr_record_of_loc_m m l : shr_m (shr_record_of_loc m l) = m.
Proof. destruct l as [|[]]; reflexivity. Qed.


Lemma round_nearest_even_cases mrs :
  let m := shr_m mrs in
  let r := round_nearest_even m (loc_of_shr_record mrs) in
  r = m \/ (r = (m + 1)%Z /\ shr_inexact mrs = true).
Proof.
  destruct mrs as [m [|] [|]]; cbn [shr_m loc_of_shr_record round_nearest_even];
    unfold shr_inexact; cbn [shr_r shr_s orb].
  - right. split; reflexivity.
  - destruct (Z.even m); [left; reflexivity | right; split; reflexivity].
  - left. reflexivity.
  - left. reflexivity.
Qed.

(** The rounding function never returns [NaN] and keeps the sign it is
    given, also when it underflows to zero or overflows to infinity. *)
Lemma round_aux_signed sx m e l :
  (0 <= m)%Z -> sf_signed sx (binary_round_aux prec emax sx m e l).
Proof.
  intros H. unfold binary_round_aux, shr_fexp.
  destruct (shr (shr_record_of_loc m l) e _) as [mrs' e'] eqn:E1.
  pose proof (shr_shifted (shr_record_of_loc m l) e
    (SpecFloat.fexp prec emax (Zdigits2 m + e) - e)) as S1.
  rewrite E1, shr_record_of_loc_m in S1. cbn [fst snd] in S1.
  destruct (S1 H) as [[M0 _] _].
  destruct (shr (shr_record_of_loc (round_nearest_even _ _) loc_Exact) e' _)
    as [mrs'' e''] eqn:E2.
  pose proof (shr_shifted
    (shr_record_of_loc (round_nearest_even (shr_m mrs') (loc_of_shr_record mrs'))
       loc_Exact) e'
    (SpecFloat.fexp prec emax
       (Zdigits2 (round_nearest_even (shr_m mrs') (loc_of_shr_record mrs')) + e')
     - e')) as S2.
  rewrite E2, shr_record_of_loc_m in S2. cbn [fst snd] in S2.
  assert (R0 : (0 <= round_nearest_even (shr_m mrs') (loc_of_shr_record mrs'))%Z).
  { pose proof (round_nearest_even_cases mrs') as RC. cbv zeta in RC.
    destruct RC as [->|[-> _]]; lia. }
  destruct (S2 R0) as [[M2 _] _].
  destruct (shr_m mrs'') as [|p|p]; cbn [sf_signed];
    [reflexivity | destruct (Z.leb _ _); reflexivity | lia].
Qed.


Lemma scaled_IZR a k e : (0 <= k)%Z ->
  IZR (a * 2 ^ k) * bpow e = IZR a * bpow (e + k).
Proof.
  intros H. rewrite mult_IZR, bpow_add, (bpow_IZR k H). ring.
Qed.


Lemma IZR_bpow_lt a b e : IZR a * bpow e < IZR b * bpow e -> (a < b)%Z.
Proof.
  intros H. pose proof (bpow_pos e). apply lt_IZR. nra.
Qed.



Lemma digits2_upper (p : positive) k :
  (0 <= k)%Z -> (Zpos p < 2 ^ k)%Z -> (Zpos (digits2_pos p) <= k)%Z.
Proof.
  intros Hk H. destruct (digits2_bounds p) as [L _].
  assert (L' : (2 ^ (Zpos (digits2_pos p) - 1) < 2 ^ k)%Z) by lia.
  apply Z.pow_lt_mono_r_iff in L'; lia.
Qed.

Lemma shr_fexp_nonzero m e l :
  (0 < m)%Z -> (-1074 <= e)%Z ->
  (0 < shr_m (fst (shr_fexp prec emax m e l)))%Z
  /\ (-1074 <= snd (shr_fexp prec emax m e l))%Z.
Proof.
  intros Hm He. unfold shr_fexp.
  set (n := (SpecFloat.fexp prec emax (Zdigits2 m + e) - e)%Z).
  pose proof (shr_shifted (shr_record_of_loc m l) e n) as S1.
  rewrite shr_record_of_loc_m in S1.
  destruct (S1 ltac:(lia)) as [[M0 [[_ M1] _]] Ee]. clear S1.
  rewrite shr_record_of_loc_m in M1.
  split; [|lia].
  destruct (Z.eq_dec (shr_m (fst (shr (shr_record_of_loc m l) e n))) 0)
    as [Z|NZ]; [|lia].
  exfalso. rewrite Z in M1. rewrite Z.mul_1_l in M1.
  destruct m as [|p|p]; try lia. cbn [Zdigits2] in n.
  pose proof (digits2_upper p (Z.max n 0) ltac:(lia) M1) as D.
  unfold n in D.
  change (SpecFloat.fexp prec emax (Z.pos (digits2_pos p) + e))
    with (Z.max (Z.pos (digits2_pos p) + e - 53) (-1074)) in D.
  lia.
Qed.

(** A non-zero mantissa at an exponent of at least [-1074] does not
    underflow to zero. *)
Lemma round_aux_nonzero sx m e l :
  (0 < m)%Z -> (-1074 <= e)%Z ->
  sf_nonzero (binary_round_aux prec emax sx m e l).
Proof.
  intros Hm He. unfold binary_round_aux.
  destruct (shr_fexp_nonzero m e l Hm He) as [M1 E1].
  destruct (shr_fexp prec emax m e l) as [mrs' e']. cbn [fst snd] in M1, E1.
  assert (R : (0 < round_nearest_even (shr_m mrs') (loc_of_shr_record mrs'))%Z).
  { pose proof (round_nearest_even_cases mrs') as RC. cbv zeta in RC.
    destruct RC as [->|[-> _]]; lia. }
  destruct (shr_fexp_nonzero _ e' loc_Exact R E1) as [M2 _].
  destruct (shr_fexp prec emax _ e' loc_Exact) as [mrs'' e''].
  cbn [fst] in M2.
  destruct (shr_m mrs'') as [|p|p]; try lia.
  destruct (Z.leb _ _); exact I.
Qed.

(** *** Alignment, addition and subtraction *)

Lemma iter_xO m d : Zpos (Pos.iter xO m d) = (Zpos m * 2 ^ Zpos d)%Z.
Proof.
  apply Pos.iter_ind with (P := fun p a => Zpos a = (Zpos m * 2 ^ Zpos p)%Z).
  - change (2 ^ 1)%Z with 2%Z. lia.
  - intros p a IH. rewrite Pos2Z.inj_succ, Z.pow_succ_r by lia. lia.
Qed.

Lemma shl_align_spec mx ex ex' :
  snd (shl_align mx ex ex') = Z.min ex ex'
  /\ Zpos (fst (shl_align mx ex ex'))
     = (Zpos mx * 2 ^ (ex - Z.min ex ex'))%Z.
Proof.
  unfold shl_align. destruct (ex' - ex)%Z as [|d|d] eqn:E; cbn [fst snd].
  - replace (Z.min ex ex') with ex by lia.
    rewrite Z.sub_diag, Z.pow_0_r. lia.
  - replace (Z.min ex ex') with ex by lia.
    rewrite Z.sub_diag, Z.pow_0_r. lia.
  - replace (Z.min ex ex') with ex' by lia.
    split; [reflexivity|]. rewrite iter_xO. f_equal. f_equal. lia.
Qed.



Lemma binary_round_signed sx mx ex :
  sf_signed sx (binary_round prec emax sx mx ex).
Proof.
  unfold binary_round. destruct (shl_align _ _ _) as [mz ez].
  apply round_aux_signed. lia.
Qed.

Lemma binary_round_nonzero sx mx ex :
  (-1074 <= ex)%Z -> sf_nonzero (binary_round prec emax sx mx ex).
Proof.
  intros H. unfold binary_round.
  pose proof (shl_align_spec mx ex
    (SpecFloat.fexp prec emax (Zpos (digits2_pos mx) + ex))) as [E _].
  destruct (shl_align _ _ _) as [mz ez]. cbn [snd] in E.
  apply round_aux_nonzero; [lia|].
  change (SpecFloat.fexp prec emax (Zpos (digits2_pos mx) + ex))
    with (Z.max (Zpos (digits2_pos mx) + ex - 53) (-1074)) in E. lia.
Qed.


(** Alignment of the two operands of an addition or subtraction. *)
Lemma aligned_val sx mx ex ez : (ez <= ex)%Z ->
  IZR (cond_Zopp sx (Zpos (fst (shl_align mx ex ez)))) * bpow ez
  = sf_val (S754_finite sx mx ex).
Proof.
  intros H. destruct (shl_align_spec mx ex ez) as [_ E].
  rewrite Z.min_r in E by exact H.
  assert (M : IZR (Zpos (fst (shl_align mx ex ez))) * bpow ez
              = IZR (Zpos mx) * bpow ex).
  { rewrite E, scaled_IZR by lia. f_equal. f_equal. lia. }
  unfold sf_val. destruct sx; cbn [cond_Zopp].
  - rewrite opp_IZR. lra.
  - lra.
Qed.

Lemma SFsub_finite sx mx ex sy my ey :
  exists D : Z,
    SFsub prec emax (S754_finite sx mx ex) (S754_finite sy my ey)
    = binary_normalize prec emax D (Z.min ex ey) false
    /\ IZR D * bpow (Z.min ex ey)
       = sf_val (S754_finite sx mx ex) - sf_val (S754_finite sy my ey).
Proof.
  eexists. split; [reflexivity|].
  rewrite minus_IZR, Rmult_minus_distr_r, !aligned_val by lia. reflexivity.
Qed.

Lemma signed_nonzero_negative s :
  sf_signed true s -> sf_nonzero s -> sf_negative s.
Proof.
  destruct s as [sg|sg| |sg m e]; cbn; intros H1 H2; subst;
    try contradiction; exact I.
Qed.

Lemma valid_exponent sg m e :
  valid_binary (S754_finite sg m e) = true -> (-1074 <= e)%Z.
Proof. intros H. apply canonical_digits in H. lia. Qed.

(** x < y makes x - y strictly negative: the subtraction of two binary64
    numbers never underflows to zero. *)
Lemma SFsub_negative x y :
  valid_binary x = true -> valid_binary y = true ->
  SFcompare x y = Some Lt -> sf_negative (SFsub prec emax x y).
Proof.
  intros Vx Vy C.
  destruct x as [sx|sx| |sx mx ex], y as [sy|sy| |sy my ey];
    try discriminate C.
  all: try solve [ repeat match goal with b : bool |- _ => destruct b end;
                   cbn in C |- *; first [discriminate C | exact I] ].
  pose proof (compare_val _ _ Vx Vy I I) as CV. rewrite C in CV.
  destruct (SFsub_finite sx mx ex sy my ey) as [D [-> HD]].
  assert (DN : (D < 0)%Z).
  { apply IZR_bpow_lt with (e := Z.min ex ey). rewrite HD. lra. }
  destruct D as [|p|p]; try lia. cbn [binary_normalize].
  apply signed_nonzero_negative.
  - apply binary_round_signed.
  - apply binary_round_nonzero.
    apply valid_exponent in Vx. apply valid_exponent in Vy. lia.
Qed.

(** A positive factor keeps the sign of a negative one; the product may
    underflow to the negative zero. *)
Lemma SFmul_positive_negative x y :
  sf_positive x -> sf_negative y -> sf_signed true (SFmul prec emax x y).
Proof.
  destruct x as [sx|[|]| |[|] mx ex], y as [sy|[|]| |[|] my ey];
    cbn [sf_positive sf_negative]; intros Hx Hy; try contradiction;
    try reflexivity.
  cbn [SFmul xorb]. apply round_aux_signed. lia.
Qed.


(** *** Division

    What the division hands to the rounding function is a truncation of
    the exact quotient, exact when the location says so, with enough
    digits for the first shift to be a right shift. *)


Lemma bpow_sub a b : bpow (a - b) = bpow a / bpow b.
Proof.
  pose proof (bpow_pos b). replace a with ((a - b) + b)%Z at 2 by lia.
  rewrite bpow_add. field. lra.
Qed.





(** *** Multiplication *)



End Binary64Rounding.

(** ** Comparisons and operations on floats *)

Section Binary64Order.
Local Open Scope num_scope.

(** *** Order *)

Lemma lit_0_sf : Prim2SF (#0 : float) = S754_zero false.
Proof. reflexivity. Qed.


Lemma gt_zero_positive (x : float) :
  (x > #0) = true -> sf_positive (Prim2SF x).
Proof.
  cbn [num_gt Binary64]. rewrite FloatAxioms.ltb_spec, lit_0_sf.
  destruct (Prim2SF x) as [s|[|]| |[|] m e]; cbn; intros H;
    first [discriminate H | exact I].
Qed.


Lemma lt_compare (x y : float) :
  (y > x) = true -> SFcompare (Prim2SF x) (Prim2SF y) = Some Lt.
Proof.
  cbn [num_gt Binary64]. rewrite FloatAxioms.ltb_spec. unfold SFltb.
  destruct (SFcompare _ _) as [[| |]|]; intros H;
    first [discriminate H | reflexivity].
Qed.

(** [KV * (V - Vmin)] with [KV > 0] and [V < Vmin]. *)
Lemma outlet_flow_sign (KV V Vmin : float) :
  (KV > #0) = true -> (Vmin > V) = true ->
  (#0 > KV * (V - Vmin)) = true \/ KV * (V - Vmin) = neg_zero.
Proof.
  intros HK HV.
  assert (S : sf_signed true (Prim2SF (KV * (V - Vmin)))).
  { cbn [num_mul num_sub Binary64].
    rewrite FloatAxioms.mul_spec, FloatAxioms.sub_spec.
    apply SFmul_positive_negative; [apply gt_zero_positive; exact HK|].
    apply SFsub_negative; try apply FloatAxioms.Prim2SF_valid.
    apply lt_compare. exact HV. }
  cbn [num_gt num_mul num_sub Binary64] in S |- *.
  rewrite FloatAxioms.ltb_spec, lit_0_sf.
  destruct (Prim2SF (PrimFloat.mul KV (PrimFloat.sub V Vmin)))
    as [s|s| |s m e] eqn:E;
    cbn [sf_signed] in S; try contradiction; subst s.
  - right. apply FloatAxioms.Prim2SF_inj. rewrite E. reflexivity.
  - left. reflexivity.
  - left. reflexivity.
Qed.





(** *** Zeros *)














(** *** Finite numbers *)

Lemma is_finite_spec (x : float) :
  PrimFloat.is_finite x = true -> sf_finite (Prim2SF x).
Proof.
  unfold PrimFloat.is_finite, PrimFloat.is_nan, PrimFloat.is_infinity.
  rewrite !FloatAxioms.eqb_spec, FloatAxioms.abs_spec.
  change (Prim2SF infinity) with (S754_infinity false).
  destruct (Prim2SF x) as [s|[|]| |s m e]; cbn; intros H;
    first [exact I | discriminate H].
Qed.

(** [x - x] is [+0] for every finite [x]. *)
Lemma sub_self_zero (x : float) :
  PrimFloat.is_finite x = true -> PrimFloat.sub x x = PrimFloat.zero.
Proof.
  intros H. apply is_finite_spec in H.
  apply FloatAxioms.Prim2SF_inj. rewrite FloatAxioms.sub_spec.
  unfold SF64sub.
  change (Prim2SF PrimFloat.zero) with (S754_zero false).
  destruct (Prim2SF x) as [[|]|s| |s m e]; cbn [sf_finite] in H;
    try contradiction; try reflexivity.
  destruct (SFsub_finite s m e s m e) as [D [-> HD]].
  assert (D0 : D = 0%Z).
  { pose proof (bpow_pos (Z.min e e)) as P.
    apply eq_IZR. apply Rmult_eq_reg_r with (r := bpow (Z.min e e));
      [|lra]. rewrite HD. lra. }
  rewrite D0. reflexivity.
Qed.

End Binary64Order.

(** * Conversion, outlet flow and steady state in the program's arithmetic *)

Section ProgramArithmetic.
Local Open Scope num_scope.

Local Abbreviation SimF := (CSTRSimulator float).
Local Abbreviation newR := (new (num := R)).
Local Abbreviation newF := (new (num := float)).






(** **** C6 (amended)
    The outlet flow the model computes and [getOutletFlow] returns is
    [KV·(V − Vmin)], never clamped, in every arithmetic.  Whenever
    [V < Vmin] and the valve constant [KV] is positive it is strictly
    negative in exact arithmetic; in binary64 it is strictly negative or,
    when the product underflows, [-0]: never positive and never [NaN]. *)
Theorem getOutletFlow_unclamped :
  (forall (num : Type) (N : Number num) (this : CSTRSimulator num),
     let KV := this.(params).(valveConstant) in
     let V := this.(state).(volume) in
     let Vmin := this.(params).(minimumVolume) in
     getOutletFlow this = KV * (V - Vmin)
     /\ getOutletFlowRate this = KV * (V - Vmin))
  /\ (forall this : CSTRSimulator R,
        0 < this.(params).(valveConstant) ->
        this.(state).(volume) < this.(params).(minimumVolume) ->
        getOutletFlow this < 0)%R
  /\ (forall this : SimF,
        (this.(params).(valveConstant) > #0) = true ->
        (this.(params).(minimumVolume) > this.(state).(volume)) = true ->
        (#0 > getOutletFlow this) = true
        \/ getOutletFlow this = neg_zero).
Proof.
  split; [|split].
  - intros num N this KV V Vmin. split; reflexivity.
  - intros this HKV HV. apply (getOutletFlow_exact_sign this); assumption.
  - intros this HKV HV. unfold getOutletFlow, getOutletFlowRate.
    apply outlet_flow_sign; assumption.
Qed.

Lemma getOutletFlow_unclamped_witness :
  (getOutletFlow (newR low_level_state scenario_params) < 0)%R
  /\ (#0 > getOutletFlow (newF low_level_state scenario_params)) = true
  /\ getOutletFlow (newF empty_state tiny_valve_params) = neg_zero.
Proof.
  destruct getOutletFlow_unclamped as [_ [HR HF]].
  split; [|split].
  - apply (HR (newR low_level_state scenario_params));
      cbn; exact_arith; lra.
  - destruct (HF (newF low_level_state scenario_params)) as [H|H];
      [reflexivity | reflexivity | exact H |].
    vm_compute in H. discriminate H.
  - destruct (HF (newF empty_state tiny_valve_params)) as [H|H];
      [reflexivity | reflexivity | | exact H].
    vm_compute in H. discriminate H.
Defined.



End ProgramArithmetic.

(** ** The mini graphs *)

Section MiniGraphFacts.
Local Open Scope R_scope.

(** **** X14
    The range of a mini graph, [dataMax - dataMin || 1], is never zero and
    never [NaN], whatever the bounds and the data, in binary64 as in exact
    arithmetic: the ordinate never divides by zero, and in binary64 a
    graph whose two bounds are the same finite number draws that number at
    [y = 50] (where [0/0] would be [NaN]).  In exact arithmetic, a mini
    graph given both bounds [min < max] draws every value that lies
    between them inside the band [20 <= y <= 50] of its view box, the
    lower bound at 50 and the upper bound at 20; when the two bounds
    coincide the range is 1 and a value [val] is drawn at
    [50 − (val − min)·30].  With at least two points, the abscissas run
    from 0 to 100. *)
Theorem miniGraph_points_in_view_box :
  (forall (Math_min Math_max : list R -> R) (lo hi : R) (data : list R),
     let y := point_y Math_min Math_max (Some lo) (Some hi) data in
     (lo < hi ->
      y lo = 50 /\ y hi = 20
      /\ forall val, lo <= val <= hi -> 20 <= y val <= 50)
     /\ (lo = hi ->
         range Math_min Math_max (Some lo) (Some hi) data = 1
         /\ forall val, y val = 50 - (val - lo) * 30)
     /\ ((1 < length data)%nat ->
         point_x data 0 = 0
         /\ point_x data (length data - 1) = 100
         /\ forall i, (i <= length data - 1)%nat ->
                      0 <= point_x data i <= 100))
  /\ (forall (Math_min Math_max : list R -> R) (min max : option R)
        (data : list R),
        range Math_min Math_max min max data <> 0)
  /\ (forall (Math_min Math_max : list float -> float)
        (min max : option float) (data : list float),
        num_eq (range Math_min Math_max min max data) (lit 0) = false
        /\ num_eq (range Math_min Math_max min max data)
                  (range Math_min Math_max min max data) = true)
  /\ (forall (Math_min Math_max : list float -> float) (lo : float)
        (data : list float),
        PrimFloat.is_finite lo = true ->
        range Math_min Math_max (Some lo) (Some lo) data = lit 1
        /\ point_y Math_min Math_max (Some lo) (Some lo) data lo = lit 50).
Proof.
  assert (L50 : lit 50 = 50) by (exact_arith; lra).
  assert (L30 : lit 30 = 30) by (exact_arith; lra).
  assert (L1 : lit 1 = 1) by (exact_arith; lra).
  assert (L100 : lit 100 = 100) by (exact_arith; lra).
  split; [|split; [|split]].
  - intros Math_min Math_max lo hi data y. subst y.
    unfold point_y, range, dataMin, dataMax.
    rewrite L50, L30, L1, num_or_exact.
    cbn [num_sub num_mul num_div Exact].
    split; [|split].
    + intros Hlt. destruct (Req_dec_T (hi - lo) 0) as [E|E]; [lra|].
      split; [field; exact E|]. split; [field; exact E|].
      intros val [Hlo Hhi].
      assert (Hinv : 0 < / (hi - lo)) by (apply Rinv_0_lt_compat; lra).
      assert (Hq : 0 <= (val - lo) / (hi - lo) <= 1).
      { split.
        - apply Rmult_le_pos; lra.
        - apply (Rmult_le_reg_r (hi - lo)); [lra|].
          unfold Rdiv. rewrite Rmult_assoc, Rinv_l by exact E. lra. }
      lra.
    + intros ->. destruct (Req_dec_T (hi - hi) 0) as [E|E]; [|lra].
      split; [reflexivity|]. intros val. field.
    + intros Hlen. unfold point_x. rewrite L100, L1, !lit_nat.
      cbn [num_sub num_mul num_div Exact].
      assert (H1 : 1 <= INR (length data) - 1).
      { pose proof (le_INR 2 (length data) Hlen) as H2.
        cbn [INR] in H2. lra. }
      change (INR 0) with 0.
      split; [unfold Rdiv; ring|].
      split.
      * rewrite minus_INR by lia. cbn [INR]. field. lra.
      * intros i Hi. rewrite lit_nat.
        apply le_INR in Hi. rewrite minus_INR in Hi by lia.
        cbn [INR] in Hi. pose proof (pos_INR i) as Hi0.
        assert (Hinv : 0 < / (INR (length data) - 1))
          by (apply Rinv_0_lt_compat; lra).
        assert (Hq : 0 <= INR i / (INR (length data) - 1) <= 1).
        { split.
          - apply Rmult_le_pos; lra.
          - apply (Rmult_le_reg_r (INR (length data) - 1)); [lra|].
            unfold Rdiv. rewrite Rmult_assoc, Rinv_l by lra. lra. }
        lra.
  - intros Math_min Math_max min max data. unfold range.
    rewrite num_or_exact, L1.
    destruct (Req_dec_T _ 0) as [E|E]; [lra | exact E].
  - intros Math_min Math_max min max data. unfold range, num_or.
    destruct (num_eq (num_sub _ _) (lit 0)) eqn:E0; cbn [orb].
    + split; reflexivity.
    + destruct (num_eq (num_sub _ _) (num_sub _ _)) eqn:E1; cbn [negb].
      * split; assumption.
      * split; reflexivity.
  - intros Math_min Math_max lo data Hfin.
    unfold point_y, range, dataMin, dataMax.
    cbn [num_sub Binary64]. rewrite (sub_self_zero lo Hfin).
    split; reflexivity.
Qed.

End MiniGraphFacts.
